(** * WebIDE authentication: a shallow embedding of the token helpers, the
      password helpers and the React session layer, with the properties the
      specification states about them.

    Sources embedded here:
    - [docs/08_SECURITY.md]: [hashPassword], [verifyPassword],
      [generateAccessToken], [generateRefreshToken], [verifyToken];
    - [frontend/src/services/api.ts], [frontend/src/services/auth.ts],
      [frontend/src/context/AuthContext.tsx], the [ProtectedRoute] component
      and the login page.

    The refresh-token table of the backend is not part of the sources; it is
    modelled from the specification in [RefreshStore]. *)

From stdpp Require Import base option list strings pretty gmap.
From Stdlib Require Import ZArith Lia.

Set Warnings "-register-all".

Local Open Scope string_scope.
Local Open Scope Z_scope.

(** ** JavaScript values and completions *)

Module Js.

(** Run-time values: TypeScript annotations are erased, so what the
    frontend holds is whatever JSON the server sent. Numbers are kept as
    integers; no branch of the embedded code depends on a fraction. *)
Inductive value : Type :=
| VUndefined
| VNull
| VBool (b : bool)
| VNum (n : Z)
| VStr (s : string)
| VObj (fields : list (string * value))
| VArr (items : list value).

(** A thrown [Error] object: its [name] and its [message]. *)
Record error : Type := mkError { err_name : string; err_message : string }.

(** How a call ends: it returns or it throws. *)
Inductive completion (A : Type) : Type :=
| Normal (a : A)
| Throw (e : error).
Arguments Normal {A} a.
Arguments Throw {A} e.

Definition TypeError (msg : string) : error := mkError "TypeError" msg.
Definition Error (msg : string) : error := mkError "Error" msg.

(** [!!v] *)
Definition truthy (v : value) : bool :=
  match v with
  | VUndefined | VNull => false
  | VBool b => b
  | VNum n => negb (Z.eqb n 0)
  | VStr s => negb (String.eqb s "")
  | VObj _ | VArr _ => true
  end.

Definition nullish (v : value) : bool :=
  match v with
  | VUndefined | VNull => true
  | _ => false
  end.

(** [a ?? b] *)
Definition coalesce (a b : value) : value := if nullish a then b else a.

Fixpoint assoc (k : string) (fields : list (string * value)) : value :=
  match fields with
  | [] => VUndefined
  | (k', v) :: rest => if String.eqb k k' then v else assoc k rest
  end.

(** [v.k]: reading a property of [undefined] or [null] throws; other
    primitives have no own property of the names read here. *)
Definition get (v : value) (k : string) : completion value :=
  match v with
  | VUndefined | VNull =>
      Throw (TypeError ("Cannot read properties of nullish value, reading " +:+ k))
  | VObj fields => Normal (assoc k fields)
  | _ => Normal VUndefined
  end.

(** [v?.k] *)
Definition get_opt (v : value) (k : string) : value :=
  match v with
  | VObj fields => assoc k fields
  | _ => VUndefined
  end.

Definition has_key (v : value) (k : string) : bool :=
  match v with
  | VObj fields => existsb (fun kv => String.eqb k (fst kv)) fields
  | _ => false
  end.

(** [String(v)], the way a template literal renders a value. *)
Fixpoint to_string (v : value) : string :=
  match v with
  | VUndefined => "undefined"
  | VNull => "null"
  | VBool b => if b then "true" else "false"
  | VNum n => pretty n
  | VStr s => s
  | VObj _ => "[object Object]"
  | VArr items =>
      String.concat ","
        (map (fun x => match x with
                       | VUndefined | VNull => ""
                       | _ => to_string x
                       end) items)
  end.

Definition keys (v : value) : list string :=
  match v with
  | VObj fields => map fst fields
  | _ => []
  end.

(** What [JSON.parse (JSON.stringify v)] gives back: properties holding
    [undefined] are dropped, array slots holding [undefined] become
    [null]. *)
Fixpoint json_roundtrip (v : value) : value :=
  match v with
  | VObj fields =>
      VObj ((fix go (l : list (string * value)) : list (string * value) :=
               match l with
               | [] => []
               | (k, VUndefined) :: rest => go rest
               | (k, x) :: rest => (k, json_roundtrip x) :: go rest
               end) fields)
  | VArr items =>
      VArr (map (fun x => match x with
                          | VUndefined => VNull
                          | _ => json_roundtrip x
                          end) items)
  | _ => v
  end.

(** A value as [JSON.parse] produces them: no [undefined] anywhere. *)
Fixpoint is_json (v : value) : bool :=
  match v with
  | VUndefined => false
  | VObj fields => forallb (fun kv => let '(_, x) := kv in is_json x) fields
  | VArr items => forallb is_json items
  | _ => true
  end.

Definition bind {A B : Type} (c : completion A) (k : A -> completion B) : completion B :=
  match c with
  | Normal a => k a
  | Throw e => Throw e
  end.

(** [try { body } catch { handler }] *)
Definition try_catch {A : Type} (body : completion A) (handler : error -> completion A)
  : completion A :=
  match body with
  | Normal a => Normal a
  | Throw e => handler e
  end.

End Js.

Import Js.

(** ** JSON Web Tokens: [backend/src/utils/jwt.ts] over the [jsonwebtoken]
       package *)

Module Jwt.

(** [config]: only the two secrets the token helpers read. *)
Record Config : Type := mkConfig {
  JWT_SECRET : string;
  JWT_REFRESH_SECRET : string
}.

(** A token string is either a compact serialization
    [b64(header).b64(payload).signature], kept in parsed form, or any other
    string. *)
Inductive token : Type :=
| Jws (header payload : value) (signature : string)
| NotJws (raw : string).

Definition JsonWebTokenError (msg : string) : error := mkError "JsonWebTokenError" msg.
Definition TokenExpiredError : error := mkError "TokenExpiredError" "jwt expired".
Definition NotBeforeError : error := mkError "NotBeforeError" "jwt not active".

(** *** Time spans, as the [ms] package reads them (integer amounts with
        the short unit names) *)

Definition digit (a : Ascii.ascii) : option Z :=
  let n := Z.of_N (Ascii.N_of_ascii a) in
  if (48 <=? n) && (n <=? 57) then Some (n - 48) else None.

Fixpoint read_digits (s : string) (acc : Z) : Z * string :=
  match s with
  | String a rest =>
      match digit a with
      | Some d => read_digits rest (10 * acc + d)
      | None => (acc, s)
      end
  | EmptyString => (acc, s)
  end.

Definition unit_ms (u : string) : option Z :=
  if String.eqb u "" then Some 1
  else if String.eqb u "ms" then Some 1
  else if String.eqb u "s" then Some 1000
  else if String.eqb u "m" then Some 60000
  else if String.eqb u "h" then Some 3600000
  else if String.eqb u "d" then Some 86400000
  else if String.eqb u "w" then Some 604800000
  else if String.eqb u "y" then Some 31557600000
  else None.

(** [ms(str)]: milliseconds, or [undefined] when the string is no span. *)
Definition ms (str : string) : option Z :=
  match str with
  | EmptyString => None
  | String a _ =>
      match digit a with
      | None => None
      | Some _ =>
          let '(n, u) := read_digits str 0 in
          match unit_ms u with
          | Some k => Some (n * k)
          | None => None
          end
      end
  end.

(** [timespan(time, iat)] of jsonwebtoken for a string [time]:
    [Math.floor(iat + ms(time) / 1000)]. *)
Definition timespan (time : string) (iat : Z) : option Z :=
  match ms time with
  | Some milliseconds => Some (iat + milliseconds / 1000)
  | None => None
  end.

Definition supported_algorithms : list string := ["HS256"; "HS384"; "HS512"].

(** *** The key of the HS* algorithms

    [jwa] signs with [crypto.createHmac], and HMAC first brings the secret
    to the block length of its hash (64 bytes for SHA-256, 128 for SHA-384
    and SHA-512): a secret longer than a block is replaced by its digest,
    and what there is then is filled up with NUL bytes. The tag depends on
    the secret through that block alone. *)
Definition block_size (alg : string) : nat :=
  if String.eqb alg "HS256" then 64%nat else 128%nat.

Definition zero_pad (n : nat) (key : string) : string :=
  key +:+ String.string_of_list_ascii (replicate (n - String.length key) Ascii.zero).

Section Hmac.

(** The hash of the algorithm, and the two keyed passes over the message
    (protected header and payload) that follow the key preparation. *)
Variable digest : string -> string -> string.
Variable keyed_hash : string -> string -> value -> value -> string.

Definition block_key (alg secret : string) : string :=
  zero_pad (block_size alg)
    (if (block_size alg <? String.length secret)%nat then digest alg secret else secret).

Definition HMAC (alg secret : string) (header payload : value) : string :=
  keyed_hash alg (block_key alg secret) header payload.

End Hmac.

Section Signing.

(** The keyed MAC behind the HS* algorithms: algorithm, secret, protected
    header and payload give the signature. *)
Variable hmac : string -> string -> value -> value -> string.

(** [jwt.sign(payload, secret, { expiresIn, algorithm })] at clock [now]
    (seconds): the library adds [iat] and [exp] to the payload. *)
Definition sign (payload : list (string * value)) (secret : string)
    (expiresIn algorithm : string) (now : Z) : completion token :=
  if String.eqb secret "" then
    Throw (Error "secretOrPrivateKey must have a value")
  else
    match timespan expiresIn now with
    | None => Throw (Error "expiresIn should be a number of seconds or string representing a timespan")
    | Some exp =>
        let header := VObj [("alg", VStr algorithm); ("typ", VStr "JWT")] in
        let claims := VObj (payload ++ [("iat", VNum now); ("exp", VNum exp)])%list in
        Normal (Jws header claims (hmac algorithm secret header claims))
    end.

(** The [nbf] and [exp] checks of [jwt.verify]. *)
Definition check_nbf (payload : value) (now : Z) : completion unit :=
  bind (get payload "nbf") (fun nbf =>
    match nbf with
    | VUndefined => Normal tt
    | VNum n => if now <? n then Throw NotBeforeError else Normal tt
    | _ => Throw (JsonWebTokenError "invalid nbf value")
    end).

Definition check_exp (payload : value) (now : Z) : completion unit :=
  bind (get payload "exp") (fun exp =>
    match exp with
    | VUndefined => Normal tt
    | VNum n => if n <=? now then Throw TokenExpiredError else Normal tt
    | _ => Throw (JsonWebTokenError "invalid exp value")
    end).

(** [jwt.verify(token, secret)] at clock [now]: shape, algorithm, signature,
    then the time claims; the payload is returned. *)
Definition verify (tok : token) (secret : string) (now : Z) : completion value :=
  match tok with
  | NotJws raw =>
      if String.eqb raw "" then Throw (JsonWebTokenError "jwt must be provided")
      else Throw (JsonWebTokenError "jwt malformed")
  | Jws header payload signature =>
      if String.eqb signature "" then
        Throw (JsonWebTokenError "jwt signature is required")
      else
        match get_opt header "alg" with
        | VStr alg =>
            if negb (existsb (String.eqb alg) supported_algorithms) then
              Throw (JsonWebTokenError "invalid algorithm")
            else if negb (String.eqb signature (hmac alg secret header payload)) then
              Throw (JsonWebTokenError "invalid signature")
            else
              bind (check_nbf payload now) (fun _ =>
              bind (check_exp payload now) (fun _ =>
              Normal payload))
        | _ => Throw (JsonWebTokenError "invalid algorithm")
        end
  end.

(** The signature [jwt.verify] compares a token's own with, under a given
    secret. *)
Definition expected_signature (tok : token) (secret : string) : string :=
  match tok with
  | Jws header payload _ =>
      match get_opt header "alg" with
      | VStr alg => hmac alg secret header payload
      | _ => ""
      end
  | NotJws _ => ""
  end.

Variable config : Config.

(** [generateAccessToken(userId, email)] *)
Definition generateAccessToken (userId email : string) (now : Z) : completion token :=
  sign [("sub", VStr userId); ("email", VStr email); ("type", VStr "access")]
       (JWT_SECRET config) "24h" "HS256" now.

(** [generateRefreshToken(userId)] *)
Definition generateRefreshToken (userId : string) (now : Z) : completion token :=
  sign [("sub", VStr userId); ("type", VStr "refresh")]
       (JWT_REFRESH_SECRET config) "30d" "HS256" now.

(** [verifyToken(token)]: whatever [jwt.verify] throws is replaced by one
    [Error('Invalid token')]. *)
Definition verifyToken (tok : token) (now : Z) : completion value :=
  try_catch (verify tok (JWT_SECRET config) now)
            (fun _ => Throw (Error "Invalid token")).

End Signing.

(** The claims of a token. *)
Definition claims (tok : token) : value :=
  match tok with
  | Jws _ payload _ => payload
  | NotJws _ => VUndefined
  end.

(** A lifetime of minutes, not hours: positive and below one hour, in
    seconds. *)
Definition minutes_not_hours (ttl : Z) : Prop := 0 < ttl < 3600.

End Jwt.

(** ** Password hashing: [hashPassword] and [verifyPassword] over the
       [bcrypt] package *)

Module Bcrypt.

(** A stored hash is either a modular-crypt string
    [$version$cost$salt digest], kept in parsed form, or any other string. *)
Inductive hash_string : Type :=
| Crypt (version : string) (cost : Z) (salt digest : string)
| NotCrypt (raw : string).

(** A password reaches the C code of the package as its UTF-8 bytes
    followed by the terminating NUL; a [string] here is that byte
    sequence. *)
Definition NUL : Ascii.ascii := Ascii.zero.

Definition c_string (password : string) : string :=
  password +:+ String NUL "".

(** [key_len] as [bcrypt()] sets it from the version letter of the salt:
    [2b] caps the length at 72 and counts the NUL
    ([if (key_len > 72) key_len = 72; key_len++]); [2a] counts the NUL and
    [2] does not, both keeping eight bits
    ([(u_int8_t)(key_len + (minor >= 'a' ? 1 : 0))]). *)
Definition key_len (version : string) (len : nat) : nat :=
  if String.eqb version "2b" then S (Nat.min len 72)
  else if String.eqb version "2a" then (len + 1) mod 256
  else len mod 256.

(** The key schedule XORs 18 words of key into the P-array, 72 bytes in
    all. *)
Definition max_key_bytes : nat := 72.

Definition byte_at (data : string) (j : nat) : Ascii.ascii :=
  default NUL (String.get j data).

(** [Blowfish_stream2word] walks the key cyclically: the index goes back
    to 0 whenever it has reached [key_len]
    ([if (j >= databytes) j = 0; temp = (temp << 8) | data[j]; j++]). *)
Definition stream_index (keybytes i : nat) : nat :=
  if (keybytes =? 0)%nat then 0%nat else (i mod keybytes)%nat.

(** The bytes that key the cipher: the only part of the password the
    digest depends on. *)
Definition key_of (version password : string) : string :=
  let keybytes := key_len version (String.length password) in
  String.string_of_list_ascii
    (map (fun i => byte_at (c_string password) (stream_index keybytes i))
         (seq 0 max_key_bytes)).

(** The versions [bcrypt()] computes for ([$2$], [$2a$], [$2b$]; for any
    other it writes its error string, which equals no hash) and the costs
    it accepts ([n > 31 || n < 0], then [1 << n < BCRYPT_MINROUNDS] with
    16 minimal rounds). *)
Definition known_version (version : string) : bool :=
  String.eqb version "2" || String.eqb version "2a" || String.eqb version "2b".

Definition known_cost (cost : Z) : bool := (4 <=? cost) && (cost <=? 31).

Section Hashing.

(** The expensive key schedule: cost, salt and key bytes give the digest. *)
Variable eksblowfish : Z -> string -> string -> string.

(** [bcrypt.hash(password, rounds)], with the salt it draws made an
    argument; [genSalt] writes version [2b] and brings the rounds into
    4..31. *)
Definition hash (password : string) (rounds : Z) (salt : string) : hash_string :=
  let cost := Z.max 4 (Z.min 31 rounds) in
  Crypt "2b" cost salt (eksblowfish cost salt (key_of "2b" password)).

(** [bcrypt.compare(password, hash)]: the hash is recomputed with the
    version, cost and salt of the stored hash and compared with it; a
    string that is no bcrypt hash compares false. *)
Definition compare (password : string) (h : hash_string) : bool :=
  match h with
  | Crypt version cost salt digest =>
      known_version version && known_cost cost &&
      String.eqb (eksblowfish cost salt (key_of version password)) digest
  | NotCrypt _ => false
  end.

(** [hashPassword(password)] *)
Definition hashPassword (password salt : string) : hash_string :=
  let saltRounds := 12 in
  hash password saltRounds salt.

(** [verifyPassword(password, hash)] *)
Definition verifyPassword (password : string) (h : hash_string) : bool :=
  compare password h.

End Hashing.

End Bcrypt.

(** ** The password policy: [validatePassword] of
       [backend/src/utils/validation.ts] *)

Module Validation.

(** A JavaScript string is a sequence of UTF-16 code units; [length] counts
    them and the character classes below are ranges of them. *)
Definition upper (c : N) : bool := ((65 <=? c) && (c <=? 90))%N.
Definition lower (c : N) : bool := ((97 <=? c) && (c <=? 122))%N.
Definition digit (c : N) : bool := ((48 <=? c) && (c <=? 57))%N.

(** The class of special characters of the fifth rule, by code unit:
    exclamation mark, at, hash, dollar, percent, caret, ampersand, asterisk,
    the two parentheses, comma, full stop, question mark, double quote,
    colon, the two braces, bar, less-than, greater-than. *)
Definition special_units : list N :=
  [33; 64; 35; 36; 37; 94; 38; 42; 40; 41; 44; 46; 63; 34; 58; 123; 125; 124; 60; 62]%N.

Definition special (c : N) : bool := existsb (N.eqb c) special_units.

(** [/[class]/.test(s)] *)
Definition test (class : N -> bool) (s : list N) : bool := existsb class s.

Record verdict : Type := mkVerdict { isValid : bool; errors : list string }.

(** [errors.push(msg)] when [failed]. *)
Definition push_if (failed : bool) (msg : string) (errors : list string) : list string :=
  if failed then (errors ++ [msg])%list else errors.

Definition validatePassword (password : list N) : verdict :=
  let errors := [] in
  let errors := push_if (List.length password <? 12)%nat
                  "Password must be at least 12 characters" errors in
  let errors := push_if (negb (test upper password))
                  "Password must contain at least one uppercase letter" errors in
  let errors := push_if (negb (test lower password))
                  "Password must contain at least one lowercase letter" errors in
  let errors := push_if (negb (test digit password))
                  "Password must contain at least one number" errors in
  let errors := push_if (negb (test special password))
                  "Password must contain at least one special character" errors in
  mkVerdict (List.length errors =? 0)%nat errors.

End Validation.

(** ** The refresh-token table and its rotation *)

Module RefreshStore.

(** The error taxonomy of the specification (section 7). *)
Inductive failure : Type :=
| ValidationError | Unauthorized | Forbidden | Conflict | NotFound | InternalError.

(** Modelled from the spec: a Refresh Token Record (section 3); the source
    of the table is not available. The opaque id of a record is its row
    number: rows are appended and never deleted. *)
Record record : Type := mkRecord {
  user_id : string;
  token_hash : string;
  expires_at : Z;
  revoked_at : option Z;
  created_at : Z
}.

(** Modelled from the spec: "a record is usable if and only if
    [revoked_at IS NULL AND expires_at > now()]" (section 3). *)
Definition usable (now : Z) (r : record) : Prop :=
  revoked_at r = None /\ now < expires_at r.

#[global] Instance usable_dec now r : Decision (usable now r).
Proof. unfold usable. apply _. Defined.

(** The record with id [id] exists and is usable at [now]. *)
Definition active (now : Z) (id : nat) (st : list record) : Prop :=
  exists r, st !! id = Some r /\ usable now r.

(** Modelled from the spec: the hash column is unique (section 3). *)
Definition unique_hashes (st : list record) : Prop := NoDup (token_hash <$> st).

(** Modelled from the spec: [persist(userId, tokenHash, expiresAt) -> recordId]
    (section 4.4); the unique hash column rejects a second row with the same
    hash. *)
Definition persist (userId tokenHash : string) (expiresAt now : Z) (st : list record)
    : failure + nat * list record :=
  if decide (tokenHash ∈ token_hash <$> st) then inl Conflict
  else inr (List.length st, (st ++ [mkRecord userId tokenHash expiresAt None now])%list).

(** Modelled from the spec: [findActive(tokenHash) -> record | none]
    (section 4.4). *)
Definition findActive (tokenHash : string) (now : Z) (st : list record)
    : option (nat * record) :=
  list_find (fun r => token_hash r = tokenHash /\ usable now r) st.

Definition mark_revoked (now : Z) (r : record) : record :=
  match revoked_at r with
  | None => mkRecord (user_id r) (token_hash r) (expires_at r) (Some now) (created_at r)
  | Some _ => r
  end.

(** Modelled from the spec: [revoke(recordId) -> void] (section 4.4);
    "revoking an already-revoked record is a no-op" (section 4.5). *)
Definition revoke (id : nat) (now : Z) (st : list record) : list record :=
  alter (mark_revoked now) id st.

Section Rotation.

(** The one-way hash under which a raw token is stored. *)
Variable hash_token : string -> string.

(** Lifetime of a refresh token, in seconds. *)
Variable refresh_ttl : Z.

(** Modelled from the spec: [rotate(oldTokenHash) -> (newRawToken, newRecordId)]
    (section 4.4), one transaction: the old record is revoked, the new one
    is inserted for the same user; when the insertion fails the transaction
    is rolled back. The random raw value of the new token is the argument
    [fresh]. *)
Definition rotate (oldTokenHash : string) (now : Z) (fresh : string) (st : list record)
    : (failure + string * nat) * list record :=
  match findActive oldTokenHash now st with
  | None => (inl Unauthorized, st)
  | Some (id, r) =>
      let st1 := revoke id now st in
      match persist (user_id r) (hash_token fresh) (now + refresh_ttl) now st1 with
      | inl e => (inl e, st)
      | inr (newId, st2) => (inr (fresh, newId), st2)
      end
  end.

(** The tables the transaction of [rotate] goes through, in order: before,
    after the revocation, after the insertion. *)
Definition rotate_states (oldTokenHash : string) (now : Z) (fresh : string)
    (st : list record) : list (list record) :=
  match findActive oldTokenHash now st with
  | None => [st]
  | Some (id, r) =>
      let st1 := revoke id now st in
      match persist (user_id r) (hash_token fresh) (now + refresh_ttl) now st1 with
      | inl _ => [st; st1]
      | inr (_, st2) => [st; st1; st2]
      end
  end.

(** Modelled from the spec: login "issues ... refresh token, persists
    refresh record" (section 4.5). *)
Definition issue (userId raw : string) (now : Z) (st : list record)
    : failure + nat * list record :=
  persist userId (hash_token raw) (now + refresh_ttl) now st.

(** Modelled from the spec: the refresh operation presents a raw token and
    "rotates (4.4)" the record stored under its hash (section 4.5). *)
Definition refresh (raw : string) (now : Z) (fresh : string) (st : list record)
    : (failure + string * nat) * list record :=
  rotate (hash_token raw) now fresh st.

End Rotation.

End RefreshStore.

(** ** The React frontend: [services/api.ts], [services/auth.ts],
       [context/AuthContext.tsx], [ProtectedRoute], the login and register
       pages *)

Module Frontend.

Definition AUTH_STORAGE_KEY : string := "webide.auth".

(** A string held by [localStorage], represented by what [JSON.parse] makes
    of it: a value, or a syntax error. The empty string is [NotJson ""]. *)
Inductive item : Type :=
| Json (v : value)
| NotJson (raw : string).

Definition JSON_stringify (v : value) : item :=
  match v with
  | VUndefined => NotJson "undefined"
  | _ => Json (json_roundtrip v)
  end.

Definition JSON_parse (raw : item) : completion value :=
  match raw with
  | Json v => Normal v
  | NotJson _ => Throw (mkError "SyntaxError" "Unexpected token in JSON")
  end.

(** [!raw] for the result of [localStorage.getItem]: [null] or [""]. *)
Definition no_item (raw : option item) : bool :=
  match raw with
  | None => true
  | Some (NotJson s) => String.eqb s ""
  | Some (Json _) => false
  end.

(** A request as axios sends it. *)
Record Request : Type := mkRequest {
  method : string;
  url : string;
  body : value;
  headers : list (string * string)
}.

(** The headers the [api] instance is created with. *)
Definition default_headers : list (string * string) :=
  [("Content-Type", "application/json")].

(** [{ ...headers, [k]: v }] *)
Fixpoint set_header (k v : string) (hs : list (string * string)) : list (string * string) :=
  match hs with
  | [] => [(k, v)]
  | (k', v') :: rest =>
      if String.eqb k k' then (k, v) :: rest else (k', v') :: set_header k v rest
  end.

Record Response : Type := mkResponse { status : Z; data : value }.

(** What comes back for one request. *)
Inductive reply : Type :=
| Responded (r : Response)
| NoResponse.

(** What an async function of the frontend can reject with. *)
Inductive exn : Type :=
| AxiosError (status : option Z)
| Thrown (e : error).

(** The state the code reads and writes: the three [useState] cells of
    [AuthProvider], [localStorage], the replies the server will give to the
    next requests, and the requests sent so far. Each async function runs
    to its end before the next one starts. *)
Record World : Type := mkWorld {
  user : value;
  accessToken : value;
  isLoading : bool;
  localStorage : gmap string item;
  server : list reply;
  sent : list Request
}.

Inductive outcome (A : Type) : Type :=
| Done (a : A)
| Raised (x : exn).
Arguments Done {A} a.
Arguments Raised {A} x.

Definition M (A : Type) : Type := World -> outcome A * World.

Definition ret {A : Type} (a : A) : M A := fun w => (Done a, w).

Definition raise {A : Type} (x : exn) : M A := fun w => (Raised x, w).

Definition bind {A B : Type} (m : M A) (k : A -> M B) : M B :=
  fun w =>
    match m w with
    | (Done a, w') => k a w'
    | (Raised x, w') => (Raised x, w')
    end.

Declare Scope async_scope.
Delimit Scope async_scope with async.
Notation "x <- m ;; k" := (bind m (fun x => k))
  (at level 100, m at next level, right associativity) : async_scope.
Notation "m ;; k" := (bind m (fun _ => k))
  (at level 100, right associativity) : async_scope.
Local Open Scope async_scope.

(** [try { body } finally { fin }] *)
Definition try_finally {A : Type} (body : M A) (fin : M unit) : M A :=
  fun w =>
    let '(r, w1) := body w in
    match fin w1 with
    | (Done _, w2) => (r, w2)
    | (Raised x, w2) => (Raised x, w2)
    end.

(** A synchronous computation inside an async function. *)
Definition lift {A : Type} (c : completion A) : M A :=
  match c with
  | Normal a => ret a
  | Throw e => raise (Thrown e)
  end.

Definition setUser (v : value) : M unit :=
  fun w => (Done tt, mkWorld v (accessToken w) (isLoading w) (localStorage w) (server w) (sent w)).

Definition setAccessToken (v : value) : M unit :=
  fun w => (Done tt, mkWorld (user w) v (isLoading w) (localStorage w) (server w) (sent w)).

Definition setIsLoading (b : bool) : M unit :=
  fun w => (Done tt, mkWorld (user w) (accessToken w) b (localStorage w) (server w) (sent w)).

Definition with_storage (f : gmap string item -> gmap string item) (w : World) : World :=
  mkWorld (user w) (accessToken w) (isLoading w) (f (localStorage w)) (server w) (sent w).

Definition localStorage_setItem (k : string) (v : item) : M unit :=
  fun w => (Done tt, with_storage (insert k v) w).

Definition localStorage_removeItem (k : string) : M unit :=
  fun w => (Done tt, with_storage (delete k) w).

(** *** [services/api.ts] *)

Definition getStoredToken (store : gmap string item) : completion value :=
  try_catch
    (let raw := store !! AUTH_STORAGE_KEY in
     if no_item raw then Normal VNull
     else
       Js.bind (JSON_parse (default (NotJson "") raw)) (fun parsed =>
       Normal (coalesce (get_opt parsed "accessToken") VNull)))
    (fun _ => Normal VNull).

(** The request interceptor. *)
Definition intercept_request (store : gmap string item) (config : Request)
    : completion Request :=
  Js.bind (getStoredToken store) (fun token =>
  if truthy token then
    Normal (mkRequest (method config) (url config) (body config)
              (set_header "Authorization" ("Bearer " +:+ to_string token) (headers config)))
  else Normal config).

(** axios resolves for a status in [200, 300) and rejects otherwise. *)
Definition validateStatus (status : Z) : bool := (200 <=? status) && (status <? 300).

(** One call through the [api] instance: the request interceptor, the
    exchange, the default status check. No response interceptor is
    installed. *)
Definition api_request (method url : string) (body : value) : M Response :=
  fun w =>
    match intercept_request (localStorage w) (mkRequest method url body default_headers) with
    | Throw e => (Raised (Thrown e), w)
    | Normal req =>
        let w' := mkWorld (user w) (accessToken w) (isLoading w) (localStorage w)
                          (tail (server w)) (sent w ++ [req])%list in
        match server w with
        | Responded r :: _ =>
            if validateStatus (status r) then (Done r, w')
            else (Raised (AxiosError (Some (status r))), w')
        | NoResponse :: _ | [] => (Raised (AxiosError None), w')
        end
    end.

Definition api_post (url : string) (body : value) : M Response := api_request "POST" url body.
Definition api_get (url : string) : M Response := api_request "GET" url VUndefined.

(** *** [services/auth.ts] *)

(** [response.data.data ?? response.data] *)
Definition unwrap (response : Response) : M value :=
  inner <- lift (get (data response) "data") ;;
  ret (coalesce inner (data response)).

Definition authService_login (email password : string) : M value :=
  response <- api_post "/auth/login"
                (VObj [("email", VStr email); ("password", VStr password)]) ;;
  unwrap response.

Definition authService_register (name email password : string) : M value :=
  response <- api_post "/auth/register"
                (VObj [("name", VStr name); ("email", VStr email); ("password", VStr password)]) ;;
  unwrap response.

Definition authService_verify : M value :=
  response <- api_get "/auth/verify" ;;
  unwrap response.

Definition authService_refresh (refreshToken : string) : M value :=
  response <- api_post "/auth/refresh" (VObj [("refreshToken", VStr refreshToken)]) ;;
  unwrap response.

Definition authService_logout : M unit :=
  _ <- api_post "/auth/logout" VUndefined ;;
  ret tt.

(** *** [context/AuthContext.tsx] *)

Definition readStoredAuth (store : gmap string item) : value * value :=
  let nothing := (VNull, VNull) in
  let raw := store !! AUTH_STORAGE_KEY in
  if no_item raw then nothing
  else
    match JSON_parse (default (NotJson "") raw) with
    | Throw _ => nothing
    | Normal parsed =>
        match get parsed "user", get parsed "accessToken" with
        | Normal u, Normal a => (coalesce u VNull, coalesce a VNull)
        | _, _ => nothing
        end
    end.

Definition persistAuth (state : value) : M unit :=
  localStorage_setItem AUTH_STORAGE_KEY (JSON_stringify state).

(** The state [AuthProvider] starts from. *)
Definition AuthProvider_init (store : gmap string item) (replies : list reply) : World :=
  let stored := readStoredAuth store in
  mkWorld (fst stored) (snd stored) false store replies [].

Definition refreshSession : M unit :=
  fun w =>
    let accessToken := accessToken w in
    (if negb (truthy accessToken) then ret tt
     else
       setIsLoading true ;;
       try_finally
         (response <- authService_verify ;;
          valid <- lift (get response "valid") ;;
          if truthy valid then
            responseUser <- lift (get response "user") ;;
            if truthy responseUser then
              setUser responseUser ;;
              persistAuth (VObj [("user", responseUser); ("accessToken", accessToken)])
            else ret tt
          else ret tt)
         (setIsLoading false)) w.

(** The four statements both [login] and [register] end their [try] block
    with. *)
Definition adopt (data : value) : M unit :=
  dataUser <- lift (get data "user") ;;
  setUser dataUser ;;
  dataToken <- lift (get data "accessToken") ;;
  setAccessToken dataToken ;;
  persistAuth (VObj [("user", dataUser); ("accessToken", dataToken)]).

Definition login (email password : string) : M unit :=
  setIsLoading true ;;
  try_finally
    (data <- authService_login email password ;;
     adopt data)
    (setIsLoading false).

Definition register (name email password : string) : M unit :=
  setIsLoading true ;;
  try_finally
    (authService_register name email password ;;
     data <- authService_login email password ;;
     adopt data)
    (setIsLoading false).

Definition logout : M unit :=
  setIsLoading true ;;
  try_finally
    authService_logout
    (setUser VNull ;;
     setAccessToken VNull ;;
     localStorage_removeItem AUTH_STORAGE_KEY ;;
     setIsLoading false).

(** *** [ProtectedRoute] *)

Inductive view : Type :=
| LoadingView
| NavigateTo (path : string)
| Children.

Definition ProtectedRoute (w : World) : view :=
  if isLoading w then LoadingView
  else if negb (truthy (user w)) then NavigateTo "/login"
  else Children.

(** *** The login and register pages *)

(** The [error] cell of a page and the route the router shows. *)
Record Page : Type := mkPage { error_message : option string; route : string }.

Definition LoginPage_handleSubmit (email password : string) (p : Page) (w : World)
    : Page * World :=
  let p := mkPage None (route p) in
  match login email password w with
  | (Done _, w') => (mkPage (error_message p) "/", w')
  | (Raised _, w') =>
      (mkPage (Some "Unable to sign in. Check your credentials and try again.") (route p), w')
  end.

Definition RegisterPage_handleSubmit (name email password confirmPassword : string)
    (p : Page) (w : World) : Page * World :=
  let p := mkPage None (route p) in
  if negb (String.eqb password confirmPassword) then
    (mkPage (Some "Passwords do not match.") (route p), w)
  else
    match register name email password w with
    | (Done _, w') => (mkPage (error_message p) "/", w')
    | (Raised _, w') =>
        (mkPage (Some "Unable to create account. Please try again.") (route p), w')
    end.

(** *** Sequences of operations *)

Inductive operation : Type :=
| Login (email password : string)
| Register (name email password : string)
| RefreshSession
| Logout.

Definition perform (o : operation) : M unit :=
  match o with
  | Login email password => login email password
  | Register name email password => register name email password
  | RefreshSession => refreshSession
  | Logout => logout
  end.

(** The operations one after the other; a rejection is left to the caller
    and the next operation starts from the state the rejected one left. The
    runs of the effect of [AuthProvider] ([void refreshSession()], on mount
    and when the token changes) are [RefreshSession] entries of the
    sequence. *)
Fixpoint perform_all (ops : list operation) (w : World) : World :=
  match ops with
  | [] => w
  | o :: rest => perform_all rest (snd (perform o w))
  end.

(** The entry [persistAuth] writes for a user and a token. *)
Definition stored_pair (u a : value) : item :=
  JSON_stringify (VObj [("user", u); ("accessToken", a)]).

(** Everything an operation can change in the browser. *)
Definition browser_state (w : World) : value * value * bool * gmap string item :=
  (user w, accessToken w, isLoading w, localStorage w).

(** The session the browser holds: the two state cells and the stored
    entry. *)
Definition session (w : World) : value * value * option item :=
  (user w, accessToken w, localStorage w !! AUTH_STORAGE_KEY).

(** The stored entry, if any, is an object with no property besides [user]
    and [accessToken]. *)
Definition only_user_and_token (entry : option item) : bool :=
  match entry with
  | None => true
  | Some (Json (VObj fields)) =>
      forallb (fun kv => String.eqb (fst kv) "user" || String.eqb (fst kv) "accessToken") fields
  | Some _ => false
  end.

(** The request as it leaves the request interceptor. *)
Definition outgoing (store : gmap string item) (method url : string) (body : value) : Request :=
  match intercept_request store (mkRequest method url body default_headers) with
  | Normal req => req
  | Throw _ => mkRequest method url body default_headers
  end.

(** *** The dashboard page: [loadProjects] *)

Inductive load_status : Type :=
| StatusIdle
| StatusLoading
| StatusError.

(** The [projects] and [status] cells of [DashboardPage]. *)
Record Dashboard : Type := mkDashboard { projects : value; load : load_status }.

Definition fetch_projects : M value :=
  response <- api_get "/projects" ;;
  data <- unwrap response ;;
  listed <- lift (get data "projects") ;;
  ret (coalesce listed (VArr [])).

Definition loadProjects (d : Dashboard) (w : World) : Dashboard * World :=
  let d := mkDashboard (projects d) StatusLoading in
  match fetch_projects w with
  | (Done listed, w') => (mkDashboard listed StatusIdle, w')
  | (Raised _, w') => (mkDashboard (projects d) StatusError, w')
  end.

End Frontend.

(** ** Closed inputs for the examples *)

Module Samples.

(** An instance of the MAC for closed examples: the tag is the key. It
    separates keys; it is no cryptography. *)
Definition key_tag (alg secret : string) (header payload : value) : string := secret.

Definition config : Jwt.Config := Jwt.mkConfig "access-secret" "refresh-secret".

(** The tokens the two helpers issue for ["user-1"] at 1672531200 under
    [key_tag] and [config]. *)
Definition jose_header : value := VObj [("alg", VStr "HS256"); ("typ", VStr "JWT")].

Definition access_token : Jwt.token :=
  Jwt.Jws jose_header
    (VObj [("sub", VStr "user-1"); ("email", VStr "user@example.com");
           ("type", VStr "access"); ("iat", VNum 1672531200); ("exp", VNum 1672617600)])
    "access-secret".

Definition refresh_token : Jwt.token :=
  Jwt.Jws jose_header
    (VObj [("sub", VStr "user-1"); ("type", VStr "refresh");
           ("iat", VNum 1672531200); ("exp", VNum 1675123200)])
    "refresh-secret".

(** An instance of the digest for closed examples: the key itself. *)
Definition key_digest (cost : Z) (salt key : string) : string := key.

Fixpoint letters (n : nat) : string :=
  match n with
  | O => ""
  | S n' => "a" +:+ letters n'
  end.

(** Two 73-byte passwords that differ in their last byte only. *)
Definition long_password : string := letters 72 +:+ "b".
Definition other_long_password : string := letters 72 +:+ "c".

Definition hash_token (raw : string) : string := "sha256:" +:+ raw.
Definition refresh_ttl : Z := 2592000.

(** The table after a login at time 100 issued the raw token ["r1"] to
    ["alice"]. *)
Definition table_after_login : list RefreshStore.record :=
  [RefreshStore.mkRecord "alice" (hash_token "r1") (100 + refresh_ttl) None 100].

(** The table after that token was exchanged for ["r2"] at time 500. *)
Definition table_after_refresh : list RefreshStore.record :=
  [RefreshStore.mkRecord "alice" (hash_token "r1") (100 + refresh_ttl) (Some 500) 100;
   RefreshStore.mkRecord "alice" (hash_token "r2") (500 + refresh_ttl) None 500].

Definition alice : value :=
  VObj [("id", VStr "user-1"); ("email", VStr "alice@example.com"); ("name", VStr "alice")].

Definition unauthorized : Frontend.Response :=
  Frontend.mkResponse 401
    (VObj [("success", VBool false);
           ("error", VObj [("code", VStr "AUTH_REQUIRED");
                           ("message", VStr "Token is invalid or expired")])]).

Definition logged_in : Frontend.Response :=
  Frontend.mkResponse 200
    (VObj [("success", VBool true);
           ("data", VObj [("user", alice); ("accessToken", VStr "access-1");
                          ("refreshToken", VStr "refresh-1");
                          ("expiresIn", VNum 86400)])]).

Definition created : Frontend.Response :=
  Frontend.mkResponse 201
    (VObj [("success", VBool true);
           ("data", VObj [("id", VStr "user-1"); ("email", VStr "alice@example.com");
                          ("name", VStr "alice");
                          ("createdAt", VStr "2024-01-29T10:30:00Z")])]).

(** A browser with a stored session, about to be answered 401. *)
Definition signed_in : Frontend.World :=
  Frontend.AuthProvider_init
    {[ Frontend.AUTH_STORAGE_KEY := Frontend.stored_pair alice (VStr "access-1") ]}
    [Frontend.Responded unauthorized].

(** A fresh browser whose next reply is the one given. *)
Definition fresh_browser (next : Frontend.Response) : Frontend.World :=
  Frontend.AuthProvider_init ∅ [Frontend.Responded next].

(** A second instance of the MAC, never empty: the key behind a fixed
    prefix. *)
Definition prefixed_tag (alg secret : string) (header payload : value) : string :=
  "tag:" +:+ secret.

(** An instance of HMAC for closed examples: the digest of a long secret
    is a fixed 32 bytes, and the tag shows the block the key was brought
    to. *)
Definition fixed_digest (alg secret : string) : string := letters 32.

Definition block_tag : string -> string -> value -> value -> string :=
  Jwt.HMAC fixed_digest prefixed_tag.

(** A configuration whose refresh secret is the access secret followed by
    one NUL byte. *)
Definition padded_config : Jwt.Config :=
  Jwt.mkConfig "access-secret" ("access-secret" +:+ String Ascii.zero "").

(** A configuration that uses one secret for both kinds of token. *)
Definition shared_config : Jwt.Config := Jwt.mkConfig "one-secret" "one-secret".

(** The code units of ["Str0ngP@ssw0rd!"]. *)
Definition strong_password : list N :=
  [83; 116; 114; 48; 110; 103; 80; 64; 115; 115; 119; 48; 114; 100; 33]%N.

(** A login reply that carries tokens and no user. *)
Definition tokens_only : Frontend.Response :=
  Frontend.mkResponse 200
    (VObj [("accessToken", VStr "access-1"); ("refreshToken", VStr "refresh-1")]).

(** A session check answered "not valid". *)
Definition not_valid : Frontend.Response :=
  Frontend.mkResponse 200
    (VObj [("success", VBool true); ("data", VObj [("valid", VBool false)])]).

(** A 2xx reply whose body is [null]. *)
Definition null_body : Frontend.Response := Frontend.mkResponse 200 VNull.

(** The signed-in browser, with the next reply given. *)
Definition signed_in_with (next : Frontend.Response) : Frontend.World :=
  Frontend.AuthProvider_init
    {[ Frontend.AUTH_STORAGE_KEY := Frontend.stored_pair alice (VStr "access-1") ]}
    [Frontend.Responded next].

End Samples.

(** * Properties *)

(** ** Token helpers *)

Section JwtFacts.

Variable hmac : string -> string -> value -> value -> string.
Variable config : Jwt.Config.

Local Abbreviation access_header := (VObj [("alg", VStr "HS256"); ("typ", VStr "JWT")]).

Local Abbreviation access_claims userId email now :=
  (VObj [("sub", VStr userId); ("email", VStr email); ("type", VStr "access");
         ("iat", VNum now); ("exp", VNum (now + 86400))]).

Local Abbreviation refresh_claims userId now :=
  (VObj [("sub", VStr userId); ("type", VStr "refresh");
         ("iat", VNum now); ("exp", VNum (now + 2592000))]).

Lemma timespan_24h (iat : Z) : Jwt.timespan "24h" iat = Some (iat + 86400).
Proof.
  unfold Jwt.timespan.
  assert (Hms : Jwt.ms "24h" = Some 86400000) by reflexivity.
  rewrite Hms. reflexivity.
Qed.

Lemma timespan_30d (iat : Z) : Jwt.timespan "30d" iat = Some (iat + 2592000).
Proof.
  unfold Jwt.timespan.
  assert (Hms : Jwt.ms "30d" = Some 2592000000) by reflexivity.
  rewrite Hms. reflexivity.
Qed.

Lemma eqb_empty_false (s : string) : s <> "" -> String.eqb s "" = false.
Proof. intros Hs. apply String.eqb_neq. exact Hs. Qed.

(** With a secret configured, [generateAccessToken] returns, and this is
    the token. *)
Lemma generateAccessToken_returns (userId email : string) (now : Z) :
  Jwt.JWT_SECRET config <> "" ->
  Jwt.generateAccessToken hmac config userId email now
  = Normal (Jwt.Jws access_header (access_claims userId email now)
              (hmac "HS256" (Jwt.JWT_SECRET config) access_header
                 (access_claims userId email now))).
Proof.
  intros Hsecret. unfold Jwt.generateAccessToken, Jwt.sign.
  rewrite (eqb_empty_false _ Hsecret), timespan_24h. reflexivity.
Qed.

Lemma generateRefreshToken_returns (userId : string) (now : Z) :
  Jwt.JWT_REFRESH_SECRET config <> "" ->
  Jwt.generateRefreshToken hmac config userId now
  = Normal (Jwt.Jws access_header (refresh_claims userId now)
              (hmac "HS256" (Jwt.JWT_REFRESH_SECRET config) access_header
                 (refresh_claims userId now))).
Proof.
  intros Hsecret. unfold Jwt.generateRefreshToken, Jwt.sign.
  rewrite (eqb_empty_false _ Hsecret), timespan_30d. reflexivity.
Qed.

(** Whatever [generateAccessToken] returns is the token above. *)
Lemma generateAccessToken_inv (userId email : string) (now : Z) (tok : Jwt.token) :
  Jwt.generateAccessToken hmac config userId email now = Normal tok ->
  tok = Jwt.Jws access_header (access_claims userId email now)
          (hmac "HS256" (Jwt.JWT_SECRET config) access_header
             (access_claims userId email now)).
Proof.
  unfold Jwt.generateAccessToken, Jwt.sign. rewrite timespan_24h.
  destruct (String.eqb _ ""); [discriminate |].
  intros H. injection H as <-. reflexivity.
Qed.

Lemma generateRefreshToken_inv (userId : string) (now : Z) (tok : Jwt.token) :
  Jwt.generateRefreshToken hmac config userId now = Normal tok ->
  tok = Jwt.Jws access_header (refresh_claims userId now)
          (hmac "HS256" (Jwt.JWT_REFRESH_SECRET config) access_header
             (refresh_claims userId now)).
Proof.
  unfold Jwt.generateRefreshToken, Jwt.sign. rewrite timespan_30d.
  destruct (String.eqb _ ""); [discriminate |].
  intros H. injection H as <-. reflexivity.
Qed.

(** C2 (amended). Every access token [generateAccessToken] issues carries
    [iat] equal to the clock and [exp] exactly 86400 seconds (the literal
    ['24h']) later, whatever the configuration holds. *)
Theorem access_token_expires_after_24h (userId email : string) (now : Z) :
  Jwt.JWT_SECRET config <> "" ->
  exists tok iat exp,
    Jwt.generateAccessToken hmac config userId email now = Normal tok /\
    get (Jwt.claims tok) "iat" = Normal (VNum iat) /\
    get (Jwt.claims tok) "exp" = Normal (VNum exp) /\
    iat = now /\
    exp - iat = 24 * 3600.
Proof.
  intros Hsecret. exists (Jwt.Jws access_header (access_claims userId email now)
    (hmac "HS256" (Jwt.JWT_SECRET config) access_header (access_claims userId email now))),
    now, (now + 86400).
  split; [apply generateAccessToken_returns, Hsecret |].
  repeat split. lia.
Qed.

(** C4 (amended). Every access token [generateAccessToken] issues embeds
    exactly the claims [sub] (the user id), [email], [type = "access"],
    [iat] and [exp]; there is no [username] claim. *)
Theorem access_token_claims (userId email : string) (now : Z) :
  Jwt.JWT_SECRET config <> "" ->
  exists tok,
    Jwt.generateAccessToken hmac config userId email now = Normal tok /\
    keys (Jwt.claims tok) = ["sub"; "email"; "type"; "iat"; "exp"] /\
    get (Jwt.claims tok) "sub" = Normal (VStr userId) /\
    get (Jwt.claims tok) "email" = Normal (VStr email) /\
    get (Jwt.claims tok) "type" = Normal (VStr "access") /\
    get (Jwt.claims tok) "iat" = Normal (VNum now) /\
    has_key (Jwt.claims tok) "username" = false.
Proof.
  intros Hsecret. eexists. split.
  - apply generateAccessToken_returns, Hsecret.
  - repeat split.
Qed.

(** Whatever makes [verifyToken] fail, the error is the same value. *)
Lemma verifyToken_throws_one_error (tok : Jwt.token) (now : Z) (e : error) :
  Jwt.verifyToken hmac config tok now = Throw e -> e = Error "Invalid token".
Proof.
  unfold Jwt.verifyToken, try_catch.
  destruct (Jwt.verify hmac tok (Jwt.JWT_SECRET config) now); [discriminate |].
  intros H. injection H as <-. reflexivity.
Qed.

(** [verifyToken] fails as soon as [jwt.verify] does. *)
Lemma verifyToken_rejects (tok : Jwt.token) (now : Z) (e : error) :
  Jwt.verify hmac tok (Jwt.JWT_SECRET config) now = Throw e ->
  Jwt.verifyToken hmac config tok now = Throw (Error "Invalid token").
Proof. unfold Jwt.verifyToken. intros ->. reflexivity. Qed.

(** A string that is no signed token makes [jwt.verify] throw. *)
Lemma verify_malformed (raw secret : string) (now : Z) :
  exists e, Jwt.verify hmac (Jwt.NotJws raw) secret now = Throw e.
Proof. simpl. destruct (String.eqb raw ""); eauto. Qed.

(** A signature that is not the MAC of header and payload under the secret
    makes [jwt.verify] throw. *)
Lemma verify_bad_signature (header payload : value) (signature secret : string) (now : Z) :
  (forall alg, get_opt header "alg" = VStr alg ->
               signature <> hmac alg secret header payload) ->
  exists e, Jwt.verify hmac (Jwt.Jws header payload signature) secret now = Throw e.
Proof.
  intros Hsig. simpl.
  destruct (String.eqb signature ""); [eauto |].
  destruct (get_opt header "alg") as [ | | | | alg | | ] eqn:Halg; eauto.
  destruct (negb (_ || _)); [eauto |].
  destruct (String.eqb signature (hmac alg secret header payload)) eqn:Heq; simpl; [| eauto].
  apply String.eqb_eq in Heq. destruct (Hsig alg eq_refl Heq).
Qed.

(** A token whose [exp] has been reached makes [jwt.verify] throw, whatever
    its signature. *)
Lemma verify_expired (header payload : value) (signature secret : string) (exp now : Z) :
  get payload "exp" = Normal (VNum exp) ->
  exp <= now ->
  exists e, Jwt.verify hmac (Jwt.Jws header payload signature) secret now = Throw e.
Proof.
  intros Hexp Hlate. simpl.
  destruct (String.eqb signature ""); [eauto |].
  destruct (get_opt header "alg") as [ | | | | alg | | ]; eauto.
  destruct (negb (_ || _)); [eauto |].
  destruct (String.eqb signature (hmac alg secret header payload)); simpl; [| eauto].
  destruct (Jwt.check_nbf payload now); simpl; [| eauto].
  unfold Jwt.check_exp. rewrite Hexp. simpl.
  destruct (Z.leb_spec exp now); [eauto | lia].
Qed.

(** A token signed under the secret with a supported algorithm, within its
    time claims, is returned its payload. *)
Lemma verify_accepts (header payload : value) (signature secret alg : string) (now : Z) :
  signature <> "" ->
  get_opt header "alg" = VStr alg ->
  In alg Jwt.supported_algorithms ->
  signature = hmac alg secret header payload ->
  Jwt.check_nbf payload now = Normal tt ->
  Jwt.check_exp payload now = Normal tt ->
  Jwt.verify hmac (Jwt.Jws header payload signature) secret now = Normal payload.
Proof.
  intros Hne Halg Hin Hsig Hnbf Hexp.
  assert (Hsup : existsb (String.eqb alg) Jwt.supported_algorithms = true).
  { apply existsb_exists. exists alg. split; [exact Hin | apply String.eqb_refl]. }
  cbn -[existsb String.eqb get_opt].
  rewrite (eqb_empty_false _ Hne), Halg, Hsup. cbn -[String.eqb].
  rewrite <- Hsig, String.eqb_refl. cbn -[String.eqb].
  rewrite Hnbf. simpl. rewrite Hexp. reflexivity.
Qed.


End JwtFacts.

(** ** The key preparation of HMAC *)

Section HmacFacts.

Variable digest : string -> string -> string.
Variable keyed_hash : string -> string -> value -> value -> string.

Lemma length_append (s t : string) :
  String.length (s +:+ t) = (String.length s + String.length t)%nat.
Proof.
  induction s as [| a s IH]; [reflexivity |].
  change (S (String.length (s +:+ t)) = S (String.length s + String.length t)).
  rewrite IH. reflexivity.
Qed.

Lemma append_assoc (s t u : string) : (s +:+ t) +:+ u = s +:+ (t +:+ u).
Proof.
  induction s as [| a s IH]; [reflexivity |].
  change (String a ((s +:+ t) +:+ u) = String a (s +:+ (t +:+ u))).
  rewrite IH. reflexivity.
Qed.

(** Filling up absorbs a NUL byte at the end of a key that leaves room for
    it. *)
Lemma zero_pad_NUL (n : nat) (key : string) :
  (String.length key < n)%nat ->
  Jwt.zero_pad n (key +:+ String Ascii.zero "") = Jwt.zero_pad n key.
Proof.
  intros Hlt. unfold Jwt.zero_pad. rewrite length_append, append_assoc. simpl.
  replace (n - String.length key)%nat with (S (n - (String.length key + 1)))%nat by lia.
  reflexivity.
Qed.

(** A secret shorter than a block and the same secret followed by a NUL
    byte are one HMAC key: they give the same tag for every message. *)
Lemma HMAC_ignores_trailing_NUL (alg secret : string) (header payload : value) :
  (String.length secret < Jwt.block_size alg)%nat ->
  Jwt.HMAC digest keyed_hash alg (secret +:+ String Ascii.zero "") header payload
  = Jwt.HMAC digest keyed_hash alg secret header payload.
Proof.
  intros Hlt. unfold Jwt.HMAC, Jwt.block_key. f_equal.
  rewrite length_append. simpl.
  destruct (Nat.ltb_spec (Jwt.block_size alg) (String.length secret + 1)); [lia |].
  destruct (Nat.ltb_spec (Jwt.block_size alg) (String.length secret)); [lia |].
  apply zero_pad_NUL, Hlt.
Qed.

End HmacFacts.

Section KeySeparation.

Variable hmac : string -> string -> value -> value -> string.
Variable config : Jwt.Config.

(** A token signed under one secret, presented to [jwt.verify] under
    another: it is rejected when the two secrets give different tags for
    its header and payload. *)
Lemma verify_other_tag_fails (header payload : value) (k1 k2 : string) (now : Z) :
  get_opt header "alg" = VStr "HS256" ->
  hmac "HS256" k1 header payload <> hmac "HS256" k2 header payload ->
  exists e, Jwt.verify hmac (Jwt.Jws header payload (hmac "HS256" k1 header payload)) k2 now
            = Throw e.
Proof.
  intros Halg Hne. simpl. rewrite Halg.
  destruct (String.eqb _ ""); [eauto |]. simpl.
  destruct (String.eqb (hmac "HS256" k1 header payload) (hmac "HS256" k2 header payload))
    eqn:Hsig; simpl; [| eauto].
  apply String.eqb_eq in Hsig. contradiction.
Qed.

(** And it is accepted, until it expires, when they give the same tag. *)
Lemma verify_same_tag_accepts (header payload : value) (k1 k2 : string) (now : Z) :
  get_opt header "alg" = VStr "HS256" ->
  hmac "HS256" k1 header payload = hmac "HS256" k2 header payload ->
  hmac "HS256" k1 header payload <> "" ->
  Jwt.check_nbf payload now = Normal tt ->
  Jwt.check_exp payload now = Normal tt ->
  Jwt.verify hmac (Jwt.Jws header payload (hmac "HS256" k1 header payload)) k2 now
  = Normal payload.
Proof.
  intros Halg Hsame Hne Hnbf Hexp. simpl.
  rewrite (eqb_empty_false _ Hne), Halg. simpl.
  rewrite Hsame, String.eqb_refl. simpl.
  rewrite Hnbf. simpl. rewrite Hexp. reflexivity.
Qed.


(** The secrets are all that separates the two kinds: [verifyToken] does
    not read the [type] claim, so with one secret for both a live refresh
    token is accepted as an access token. *)
Lemma shared_secret_accepts_refresh_token (userId : string) (now now' : Z) :
  Jwt.JWT_SECRET config = Jwt.JWT_REFRESH_SECRET config ->
  Jwt.JWT_REFRESH_SECRET config <> "" ->
  (forall alg k header payload, hmac alg k header payload <> "") ->
  now' < now + 2592000 ->
  exists tok,
    Jwt.generateRefreshToken hmac config userId now = Normal tok /\
    Jwt.verifyToken hmac config tok now' = Normal (Jwt.claims tok).
Proof.
  intros Hsame Hsecret Htag Hlive. eexists. split.
  - apply generateRefreshToken_returns, Hsecret.
  - unfold Jwt.verifyToken. rewrite Hsame. simpl.
    rewrite (eqb_empty_false _ (Htag _ _ _ _)). simpl.
    rewrite String.eqb_refl. simpl. unfold Jwt.check_exp. simpl.
    destruct (Z.leb_spec (now + 2592000) now'); [lia | reflexivity].
Qed.

(** An access token passes [verifyToken] until it expires and yields its
    subject. *)
Lemma access_token_verifies (userId email : string) (now now' : Z) :
  Jwt.JWT_SECRET config <> "" ->
  (forall alg k header payload, hmac alg k header payload <> "") ->
  now' < now + 86400 ->
  exists tok payload,
    Jwt.generateAccessToken hmac config userId email now = Normal tok /\
    Jwt.verifyToken hmac config tok now' = Normal payload /\
    get payload "sub" = Normal (VStr userId).
Proof.
  intros Hsecret Htag Hlive. eexists. eexists. split; [| split].
  - apply generateAccessToken_returns, Hsecret.
  - unfold Jwt.verifyToken. simpl.
    rewrite (eqb_empty_false _ (Htag _ _ _ _)). simpl.
    rewrite String.eqb_refl. simpl. unfold Jwt.check_exp. simpl.
    destruct (Z.leb_spec (now + 86400) now'); [lia | reflexivity].
  - reflexivity.
Qed.

(** An expired access token is rejected. *)
Lemma expired_access_token_rejected (userId email : string) (now now' : Z) (tok : Jwt.token) :
  now + 86400 <= now' ->
  Jwt.generateAccessToken hmac config userId email now = Normal tok ->
  Jwt.verifyToken hmac config tok now' = Throw (Error "Invalid token").
Proof.
  intros Hlate Hgen. apply generateAccessToken_inv in Hgen. subst tok.
  unfold Jwt.verifyToken. simpl.
  destruct (String.eqb _ ""); [reflexivity |]. simpl.
  destruct (String.eqb _ _); simpl; [| reflexivity].
  unfold Jwt.check_exp. simpl.
  destruct (Z.leb_spec (now + 86400) now'); [reflexivity | lia].
Qed.

End KeySeparation.

(** ** Password helpers *)

Section BcryptFacts.

Variable eksblowfish : Z -> string -> string -> string.

(** The bytes a [2b] hash keys the cipher with, for a password of 72 bytes
    or more: its first 72 bytes. *)
Lemma leading_bytes (n : nat) (s : string) :
  (n <= String.length s)%nat ->
  String.string_of_list_ascii (map (fun i => Bcrypt.byte_at s i) (seq 0 n))
  = String.substring 0 n s.
Proof.
  revert s. induction n as [| n IH]; intros s Hlen.
  - destruct s; reflexivity.
  - destruct s as [| a s]; [simpl in Hlen; lia |].
    simpl in Hlen.
    change (seq 0 (S n)) with (0%nat :: seq 1 n). rewrite <- seq_shift, map_cons, map_map.
    cbn [String.string_of_list_ascii String.substring].
    change (Bcrypt.byte_at (String a s) 0) with a. f_equal.
    rewrite <- IH by lia. reflexivity.
Qed.

Lemma key_of_long_password (password : string) :
  (72 <= String.length password)%nat ->
  Bcrypt.key_of "2b" password = String.substring 0 72 password.
Proof.
  intros Hlen. rewrite <- leading_bytes by exact Hlen.
  unfold Bcrypt.key_of, Bcrypt.max_key_bytes. f_equal.
  apply map_ext_in. intros i Hi. apply in_seq in Hi.
  unfold Bcrypt.key_len. simpl String.eqb. cbv iota.
  rewrite Nat.min_r by exact Hlen.
  unfold Bcrypt.stream_index. simpl Nat.eqb. cbv iota.
  rewrite Nat.mod_small by lia.
  unfold Bcrypt.byte_at, Bcrypt.c_string.
  rewrite <- String.append_correct1 by lia. reflexivity.
Qed.

Lemma verifyPassword_key (password wrong salt : string) :
  Bcrypt.verifyPassword eksblowfish wrong (Bcrypt.hashPassword eksblowfish password salt)
  = String.eqb (eksblowfish 12 salt (Bcrypt.key_of "2b" wrong))
               (eksblowfish 12 salt (Bcrypt.key_of "2b" password)).
Proof. reflexivity. Qed.

(** A password always verifies against its own hash, whatever its length. *)
Lemma verifyPassword_own_hash (password salt : string) :
  Bcrypt.verifyPassword eksblowfish password
    (Bcrypt.hashPassword eksblowfish password salt) = true.
Proof. rewrite verifyPassword_key. apply String.eqb_refl. Qed.

(** Two passwords with the same key bytes verify against each other's
    hashes: the digest never sees anything else of them. *)
Lemma verifyPassword_same_key (password wrong salt : string) :
  Bcrypt.key_of "2b" wrong = Bcrypt.key_of "2b" password ->
  Bcrypt.verifyPassword eksblowfish wrong
    (Bcrypt.hashPassword eksblowfish password salt) = true.
Proof. intros Hkey. rewrite verifyPassword_key, Hkey. apply String.eqb_refl. Qed.

(** A string that is no bcrypt hash verifies no password. *)
Lemma verifyPassword_malformed_hash (password raw : string) :
  Bcrypt.verifyPassword eksblowfish password (Bcrypt.NotCrypt raw) = false.
Proof. reflexivity. Qed.

(** Nor does a hash of a version the package does not compute, such as
    [2y], whatever its digest. *)
Lemma verifyPassword_unknown_version (password version salt digest : string) (cost : Z) :
  Bcrypt.known_version version = false ->
  Bcrypt.verifyPassword eksblowfish password (Bcrypt.Crypt version cost salt digest) = false.
Proof. intros H. unfold Bcrypt.verifyPassword, Bcrypt.compare. rewrite H. reflexivity. Qed.

(** Reading a string twice over, cyclically, is reading it once over,
    cyclically. *)
Lemma byte_at_doubled (d : string) (i : nat) :
  (0 < String.length d)%nat ->
  Bcrypt.byte_at (d +:+ d) (i mod (String.length d * 2))
  = Bcrypt.byte_at d (i mod String.length d).
Proof.
  intros Hpos. unfold Bcrypt.byte_at. f_equal.
  rewrite Nat.Div0.mod_mul_r.
  assert (Hr : (i mod String.length d < String.length d)%nat)
    by (apply Nat.mod_upper_bound; lia).
  assert (Ht : (i / String.length d mod 2 < 2)%nat)
    by (apply Nat.mod_upper_bound; lia).
  destruct (i / String.length d mod 2)%nat as [| [| t]]; [| | lia].
  - rewrite Nat.mul_0_r, Nat.add_0_r. symmetry. apply String.append_correct1, Hr.
  - rewrite Nat.mul_1_r. symmetry. apply String.append_correct2.
Qed.

(** The key is read cyclically, NUL included: a password and the password
    repeated after a NUL byte key the cipher alike. *)
Lemma key_of_repeated_password (password : string) :
  (2 * String.length password + 1 <= 72)%nat ->
  Bcrypt.key_of "2b" (password +:+ String Ascii.zero password)
  = Bcrypt.key_of "2b" password.
Proof.
  intros Hlen. unfold Bcrypt.key_of. f_equal.
  apply map_ext. intros i.
  assert (Hd : Bcrypt.c_string (password +:+ String Ascii.zero password)
               = Bcrypt.c_string password +:+ Bcrypt.c_string password).
  { unfold Bcrypt.c_string. rewrite !append_assoc. reflexivity. }
  assert (Hc : String.length (Bcrypt.c_string password) = S (String.length password)).
  { unfold Bcrypt.c_string. rewrite length_append. simpl. lia. }
  assert (Hk1 : Bcrypt.key_len "2b" (String.length password)
                = String.length (Bcrypt.c_string password)).
  { rewrite Hc. unfold Bcrypt.key_len. simpl String.eqb. cbv iota.
    rewrite Nat.min_l by lia. reflexivity. }
  assert (Hk2 : Bcrypt.key_len "2b"
                  (String.length (password +:+ String Ascii.zero password))
                = (String.length (Bcrypt.c_string password) * 2)%nat).
  { rewrite Hc, length_append. unfold Bcrypt.key_len. simpl String.eqb. cbv iota.
    simpl String.length. rewrite Nat.min_l by lia. lia. }
  rewrite Hd, Hk1, Hk2, Hc. unfold Bcrypt.stream_index. simpl Nat.eqb. cbv iota.
  rewrite <- Hc. apply byte_at_doubled. lia.
Qed.

Lemma verifyPassword_repeated_password (password salt : string) :
  (2 * String.length password + 1 <= 72)%nat ->
  Bcrypt.verifyPassword eksblowfish (password +:+ String Ascii.zero password)
    (Bcrypt.hashPassword eksblowfish password salt) = true.
Proof. intros Hlen. apply verifyPassword_same_key, key_of_repeated_password, Hlen. Qed.

(** C6 (amended). A password verifies against its own hash. A wrong
    password is rejected exactly when its digest under the salt and cost of
    the hash differs from that of the hashed password; it is accepted
    whenever it gives the cipher the same key bytes, as two passwords of 72
    bytes or more with the same first 72 bytes do, and as a password of at
    most 35 bytes and its repetition after a NUL byte do. *)
Theorem verifyPassword_correct (password wrong salt : string) :
  Bcrypt.verifyPassword eksblowfish password
    (Bcrypt.hashPassword eksblowfish password salt) = true /\
  (Bcrypt.verifyPassword eksblowfish wrong
     (Bcrypt.hashPassword eksblowfish password salt) = false <->
   eksblowfish 12 salt (Bcrypt.key_of "2b" wrong)
   <> eksblowfish 12 salt (Bcrypt.key_of "2b" password)) /\
  (Bcrypt.key_of "2b" wrong = Bcrypt.key_of "2b" password ->
   Bcrypt.verifyPassword eksblowfish wrong
     (Bcrypt.hashPassword eksblowfish password salt) = true) /\
  ((72 <= String.length password)%nat ->
   (72 <= String.length wrong)%nat ->
   String.substring 0 72 wrong = String.substring 0 72 password ->
   Bcrypt.verifyPassword eksblowfish wrong
     (Bcrypt.hashPassword eksblowfish password salt) = true) /\
  ((2 * String.length password + 1 <= 72)%nat ->
   wrong = password +:+ String Ascii.zero password ->
   Bcrypt.verifyPassword eksblowfish wrong
     (Bcrypt.hashPassword eksblowfish password salt) = true).
Proof.
  split; [apply verifyPassword_own_hash |].
  split; [rewrite verifyPassword_key; apply String.eqb_neq |].
  split; [apply verifyPassword_same_key |].
  split.
  - intros Hp Hw Hprefix. apply verifyPassword_same_key.
    rewrite !key_of_long_password by assumption. exact Hprefix.
  - intros Hlen ->. apply verifyPassword_repeated_password, Hlen.
Qed.

End BcryptFacts.

(** ** Refresh-token rotation *)

Section RotationFacts.

Import RefreshStore.

Variable hash_token : string -> string.
Variable refresh_ttl : Z.

Lemma findActive_Some (h : string) (now : Z) (st : list record) (id : nat) (r : record) :
  findActive h now st = Some (id, r) ->
  st !! id = Some r /\ token_hash r = h /\ usable now r.
Proof.
  unfold findActive. intros H. apply list_find_Some in H.
  destruct H as (Hl & [Hh Hu] & _). auto.
Qed.

Lemma findActive_None (h : string) (now : Z) (st : list record) :
  findActive h now st = None <->
  forall id r, st !! id = Some r -> token_hash r = h -> ~ usable now r.
Proof.
  unfold findActive. rewrite list_find_None, Forall_lookup. split.
  - intros H id r Hl Hh Hu. exact (H id r Hl (conj Hh Hu)).
  - intros H id r Hl [Hh Hu]. exact (H id r Hl Hh Hu).
Qed.

Lemma unique_hashes_lookup (st : list record) (i j : nat) (r1 r2 : record) :
  unique_hashes st ->
  st !! i = Some r1 -> st !! j = Some r2 ->
  token_hash r1 = token_hash r2 -> i = j.
Proof.
  unfold unique_hashes. intros Hnd H1 H2 Hh.
  eapply NoDup_lookup; [exact Hnd | |].
  - rewrite list_lookup_fmap, H1. reflexivity.
  - rewrite list_lookup_fmap, H2. simpl. congruence.
Qed.

Lemma mark_revoked_hash (now : Z) (r : record) :
  token_hash (mark_revoked now r) = token_hash r.
Proof. unfold mark_revoked. destruct (revoked_at r); reflexivity. Qed.

Lemma mark_revoked_unusable (now t : Z) (r : record) : ~ usable t (mark_revoked now r).
Proof.
  unfold usable, mark_revoked. destruct (revoked_at r) eqn:Hr; simpl.
  - rewrite Hr. intros [? _]. discriminate.
  - intros [? _]. discriminate.
Qed.

(** Revoking twice is revoking once. *)
Lemma mark_revoked_idempotent (now now' : Z) (r : record) :
  mark_revoked now' (mark_revoked now r) = mark_revoked now r.
Proof.
  unfold mark_revoked. destruct (revoked_at r) eqn:Hr; simpl; [rewrite Hr |]; reflexivity.
Qed.

Lemma revoke_hashes (id : nat) (now : Z) (st : list record) :
  token_hash <$> revoke id now st = token_hash <$> st.
Proof.
  unfold revoke. apply list_eq. intros i.
  rewrite !list_lookup_fmap.
  destruct (decide (i = id)) as [-> | Hne].
  - rewrite list_lookup_alter_eq. destruct (st !! id); simpl; [| reflexivity].
    rewrite mark_revoked_hash. reflexivity.
  - rewrite list_lookup_alter_ne by congruence. reflexivity.
Qed.

Lemma revoke_lookup (id : nat) (now : Z) (st : list record) (r : record) :
  st !! id = Some r -> revoke id now st !! id = Some (mark_revoked now r).
Proof. intros H. unfold revoke. rewrite list_lookup_alter_eq, H. reflexivity. Qed.

Lemma revoke_length (id : nat) (now : Z) (st : list record) :
  List.length (revoke id now st) = List.length st.
Proof. unfold revoke. apply length_alter. Qed.

Lemma persist_inr (u h : string) (e now : Z) (st st' : list record) (id : nat) :
  persist u h e now st = inr (id, st') ->
  (h ∉ token_hash <$> st) /\ id = List.length st /\
  st' = (st ++ [mkRecord u h e None now])%list.
Proof.
  unfold persist. destruct (decide _); [discriminate |].
  intros H. injection H as <- <-. auto.
Qed.

Lemma persist_unique (u h : string) (e now : Z) (st st' : list record) (id : nat) :
  unique_hashes st -> persist u h e now st = inr (id, st') -> unique_hashes st'.
Proof.
  unfold unique_hashes. intros Hnd H. apply persist_inr in H as (Hfresh & _ & ->).
  rewrite fmap_app. apply NoDup_app. split; [exact Hnd |]. split.
  - intros x Hx Hx'. simpl in Hx'. apply list_elem_of_singleton in Hx'. subst x.
    exact (Hfresh Hx).
  - simpl. apply NoDup_singleton.
Qed.

Lemma unique_hashes_nil : unique_hashes [].
Proof. apply NoDup_nil_2. Qed.

Lemma issue_unique (userId raw : string) (now : Z) (st st' : list record) (id : nat) :
  unique_hashes st ->
  issue hash_token refresh_ttl userId raw now st = inr (id, st') ->
  unique_hashes st'.
Proof. intros Hu H. exact (persist_unique _ _ _ _ _ _ _ Hu H). Qed.

Lemma revoke_unique (id : nat) (now : Z) (st : list record) :
  unique_hashes st -> unique_hashes (revoke id now st).
Proof. unfold unique_hashes. rewrite revoke_hashes. auto. Qed.

(** Logout revokes; revoking again changes nothing. *)
Lemma revoke_idempotent (id : nat) (now now' : Z) (st : list record) :
  revoke id now' (revoke id now st) = revoke id now st.
Proof.
  unfold revoke. apply list_eq. intros i.
  destruct (decide (i = id)) as [-> | Hne].
  - rewrite !list_lookup_alter_eq. destruct (st !! id); simpl; [| reflexivity].
    rewrite mark_revoked_idempotent. reflexivity.
  - rewrite !list_lookup_alter_ne by congruence. reflexivity.
Qed.

(** What a successful [rotate] did. *)
Lemma rotate_inr (h : string) (now : Z) (fresh raw' : string) (id' : nat)
    (st st' : list record) :
  rotate hash_token refresh_ttl h now fresh st = (inr (raw', id'), st') ->
  exists id r,
    findActive h now st = Some (id, r) /\
    raw' = fresh /\ id' = List.length st /\
    (hash_token fresh ∉ token_hash <$> st) /\
    st' = (revoke id now st
           ++ [mkRecord (user_id r) (hash_token fresh) (now + refresh_ttl) None now])%list.
Proof.
  unfold rotate. destruct (findActive h now st) as [[id r] |] eqn:Hfind; [| discriminate].
  destruct (persist _ _ _ _ _) as [e | [newId st2]] eqn:Hp; [discriminate |].
  intros H. injection H as <- <- <-.
  apply persist_inr in Hp as (Hfresh & -> & ->).
  rewrite revoke_hashes in Hfresh. rewrite revoke_length.
  exists id, r. auto.
Qed.

(** A failed [rotate] leaves the table as it was. *)
Lemma rotate_inl (h : string) (now : Z) (fresh : string) (e : failure) (st st' : list record) :
  rotate hash_token refresh_ttl h now fresh st = (inl e, st') -> st' = st.
Proof.
  unfold rotate. destruct (findActive h now st) as [[id r] |].
  - destruct (persist _ _ _ _ _) as [e' | [newId st2]]; intros H; congruence.
  - intros H. congruence.
Qed.

(** A hash with no usable record is answered [Unauthorized]. *)
Lemma rotate_unknown (h : string) (now : Z) (fresh : string) (st : list record) :
  findActive h now st = None ->
  rotate hash_token refresh_ttl h now fresh st = (inl Unauthorized, st).
Proof. intros H. unfold rotate. rewrite H. reflexivity. Qed.

(** A refresh with a token whose record was revoked at logout is answered
    [Unauthorized]. *)
Lemma refresh_after_revoke (raw fresh : string) (now t now' : Z) (id : nat) (r : record)
    (st : list record) :
  unique_hashes st ->
  findActive (hash_token raw) now st = Some (id, r) ->
  refresh hash_token refresh_ttl raw now' fresh (revoke id t st)
  = (inl Unauthorized, revoke id t st).
Proof.
  intros Hu Hfind. apply findActive_Some in Hfind as (Hid & Hh & _).
  apply rotate_unknown, findActive_None. intros j r' Hj Hhash.
  destruct (decide (j = id)) as [-> | Hne].
  - rewrite (revoke_lookup _ _ _ _ Hid) in Hj. injection Hj as <-.
    apply mark_revoked_unusable.
  - exfalso. apply Hne. unfold revoke in Hj.
    rewrite list_lookup_alter_ne in Hj by congruence.
    eapply unique_hashes_lookup; [exact Hu | exact Hj | exact Hid | congruence].
Qed.

Lemma rotate_unique (h : string) (now : Z) (fresh : string) (st : list record) :
  unique_hashes st -> unique_hashes (snd (rotate hash_token refresh_ttl h now fresh st)).
Proof.
  intros Hu. unfold rotate. destruct (findActive h now st) as [[id r] |]; [| exact Hu].
  destruct (persist _ _ _ _ _) as [e | [newId st2]] eqn:Hp; [exact Hu |].
  simpl. eapply persist_unique; [| exact Hp].
  unfold unique_hashes. rewrite revoke_hashes. exact Hu.
Qed.

(** A token issued at login can be refreshed before it expires, with a
    fresh value whose hash is not in the table. *)
Lemma issue_then_refresh (userId raw fresh : string) (t0 now : Z) (id : nat)
    (st0 st : list record) :
  issue hash_token refresh_ttl userId raw t0 st0 = inr (id, st) ->
  unique_hashes st0 ->
  now < t0 + refresh_ttl ->
  hash_token fresh ∉ (token_hash <$> st) ->
  exists st', refresh hash_token refresh_ttl raw now fresh st
              = (inr (fresh, S id), st').
Proof.
  unfold issue. intros Hissue Hu Hlive Hfresh.
  pose proof (persist_unique _ _ _ _ _ _ _ Hu Hissue) as Hu'.
  apply persist_inr in Hissue as (Hnew & -> & ->).
  set (row := mkRecord userId (hash_token raw) (t0 + refresh_ttl) None t0) in *.
  assert (Hrow : (st0 ++ [row])%list !! List.length st0 = Some row).
  { rewrite lookup_app_r by lia. rewrite Nat.sub_diag. reflexivity. }
  assert (Hfind : exists r, findActive (hash_token raw) now (st0 ++ [row])%list
                            = Some (List.length st0, r)).
  { destruct (findActive (hash_token raw) now (st0 ++ [row])%list) as [[j r] |] eqn:Hf.
    - apply findActive_Some in Hf as (Hj & Hh & _).
      assert (j = List.length st0) as ->
        by (eapply unique_hashes_lookup; [exact Hu' | exact Hj | exact Hrow | exact Hh]).
      eauto.
    - exfalso. rewrite findActive_None in Hf.
      apply (Hf _ _ Hrow eq_refl). split; [reflexivity | exact Hlive]. }
  destruct Hfind as [r Hf]. unfold refresh, rotate. rewrite Hf.
  unfold persist. rewrite revoke_hashes.
  destruct (decide _) as [Hin | _]; [contradiction |].
  rewrite revoke_length, length_app. simpl.
  replace (List.length st0 + 1)%nat with (S (List.length st0)) by lia.
  eauto.
Qed.

(** C1. Once a refresh with a raw token has succeeded, the record of that
    token is revoked for good: every later refresh presenting the same raw
    token is answered [Unauthorized] and changes nothing; the new record
    belongs to the same user; in none of the tables the transaction goes
    through are the old and the new record both usable. *)
Theorem rotated_token_is_rejected (st st' : list record) (raw fresh raw' : string)
    (now : Z) (id' : nat) :
  unique_hashes st ->
  refresh hash_token refresh_ttl raw now fresh st = (inr (raw', id'), st') ->
  (forall now' fresh',
     refresh hash_token refresh_ttl raw now' fresh' st' = (inl Unauthorized, st')) /\
  (exists id r,
     findActive (hash_token raw) now st = Some (id, r) /\
     st' !! id' = Some (mkRecord (user_id r) (hash_token raw') (now + refresh_ttl) None now) /\
     (forall s t,
        s ∈ rotate_states hash_token refresh_ttl (hash_token raw) now fresh st ->
        ~ (active t id s /\ active t id' s)) /\
     (forall t, ~ active t id st')) /\
  unique_hashes st'.
Proof.
  intros Hu Hrot. unfold refresh in *.
  pose proof (rotate_unique (hash_token raw) now fresh st Hu) as Hu'.
  rewrite Hrot in Hu'. simpl in Hu'.
  pose proof Hrot as Hrot'.
  apply rotate_inr in Hrot' as (id & r & Hfind & -> & -> & Hfresh & ->).
  pose proof (findActive_Some _ _ _ _ _ Hfind) as (Hid & Hh & Hus).
  assert (Hlt : (id < List.length st)%nat) by (eapply lookup_lt_Some; exact Hid).
  assert (Hold : forall tl,
             (revoke id now st ++ tl)%list !! id = Some (mark_revoked now r)).
  { intros tl. rewrite lookup_app_l by (rewrite revoke_length; exact Hlt).
    apply revoke_lookup, Hid. }
  split; [| split; [| exact Hu']].
  - intros now' fresh'. apply rotate_unknown. apply findActive_None.
    intros j r' Hj Hhash.
    destruct (decide (j = id)) as [-> | Hne].
    + rewrite Hold in Hj. injection Hj as <-. apply mark_revoked_unusable.
    + exfalso. apply Hne.
      eapply (unique_hashes_lookup _ _ _ _ _ Hu' Hj (Hold _)).
      rewrite mark_revoked_hash. congruence.
  - exists id, r. split; [exact Hfind |]. split; [| split].
    + rewrite lookup_app_r by (rewrite revoke_length; lia).
      rewrite revoke_length, Nat.sub_diag. reflexivity.
    + intros s t Hs [[ro [Hro Huo]] [rn [Hrn Hun]]].
      unfold rotate_states in Hs. rewrite Hfind in Hs.
      unfold persist in Hs. rewrite revoke_hashes in Hs.
      destruct (decide _) as [Hin | _]; [contradiction |].
      rewrite !elem_of_cons in Hs. destruct Hs as [-> | [-> | [-> | Hs]]].
      * rewrite lookup_ge_None_2 in Hrn by lia. discriminate.
      * rewrite revoke_lookup with (r := r) in Hro by exact Hid.
        injection Hro as <-. exact (mark_revoked_unusable _ _ _ Huo).
      * rewrite Hold in Hro. injection Hro as <-.
        exact (mark_revoked_unusable _ _ _ Huo).
      * apply elem_of_nil in Hs. exact Hs.
    + intros t [ro [Hro Huo]]. rewrite Hold in Hro. injection Hro as <-.
      exact (mark_revoked_unusable _ _ _ Huo).
Qed.

End RotationFacts.

(** ** The frontend session *)

Section FrontendFacts.

Import Frontend.

(** The interceptor cannot throw: [getStoredToken] catches everything. *)
Lemma getStoredToken_returns (store : gmap string item) :
  exists token, getStoredToken store = Normal token.
Proof.
  unfold getStoredToken. destruct (no_item _); simpl; [eauto |].
  destruct (default _ _); simpl; eauto.
Qed.

Lemma intercept_request_returns (store : gmap string item) (config : Request) :
  exists hs,
    intercept_request store config
    = Normal (mkRequest (method config) (url config) (body config) hs).
Proof.
  unfold intercept_request. destruct (getStoredToken_returns store) as [token ->].
  simpl. destruct (truthy token); [eauto |]. destruct config; simpl; eauto.
Qed.

(** A request changes neither the state cells nor the storage, whatever the
    reply; it is logged and consumes one reply. *)
Lemma api_request_effect (m u : string) (b : value) (w : World) :
  exists hs,
    let w' := snd (api_request m u b w) in
    browser_state w' = browser_state w /\
    sent w' = (sent w ++ [mkRequest m u b hs])%list /\
    server w' = tail (server w).
Proof.
  unfold api_request.
  destruct (intercept_request_returns (localStorage w) (mkRequest m u b default_headers)) as [hs ->].
  exists hs. simpl.
  destruct (server w) as [| [r |] rest]; simpl; auto.
  destruct (validateStatus (status r)); simpl; auto.
Qed.

(** How a request ends, by the reply it gets. *)
Lemma api_request_outcome (m u : string) (b : value) (w : World) :
  fst (api_request m u b w)
  = match server w with
    | Responded r :: _ =>
        if validateStatus (status r) then Done r else Raised (AxiosError (Some (status r)))
    | _ => Raised (AxiosError None)
    end.
Proof.
  unfold api_request.
  destruct (intercept_request_returns (localStorage w) (mkRequest m u b default_headers)) as [hs ->].
  destruct (server w) as [| [r |] rest]; simpl; auto.
  destruct (validateStatus (status r)); simpl; auto.
Qed.

Lemma unwrap_effect (r : Response) (w : World) : snd (unwrap r w) = w.
Proof. unfold unwrap, lift. destruct (get (data r) "data"); reflexivity. Qed.

Lemma unwrap_outcome (r : Response) (w : World) (v : value) :
  fst (unwrap r w) = Done v ->
  nullish v = false /\ v = coalesce (get_opt (data r) "data") (data r).
Proof.
  unfold unwrap, lift. destruct (data r) as [| | b | n | s | fields | items];
    simpl; try discriminate; intros H; injection H as <-; try (split; reflexivity).
  unfold coalesce. destruct (nullish (assoc "data" fields)) eqn:Hn; auto.
Qed.

(** A call that posts once and unwraps the reply leaves the browser state
    alone and sends exactly that request. *)
Lemma call_effect (m u : string) (b : value) (w : World) :
  exists hs,
    let w' := snd ((response <- api_request m u b ;; unwrap response)%async w) in
    browser_state w' = browser_state w /\
    sent w' = (sent w ++ [mkRequest m u b hs])%list /\
    server w' = tail (server w).
Proof.
  destruct (api_request_effect m u b w) as (hs & Hb & Hs & Hq). exists hs.
  unfold bind. destruct (api_request m u b w) as [[r | x] w1]; simpl in *.
  - rewrite unwrap_effect. auto.
  - auto.
Qed.

Lemma call_done (m u : string) (b v : value) (w : World) :
  fst ((response <- api_request m u b ;; unwrap response)%async w) = Done v ->
  nullish v = false.
Proof.
  unfold bind. destruct (api_request m u b w) as [[r | x] w1]; simpl; [| discriminate].
  intros H. apply unwrap_outcome in H. tauto.
Qed.

Lemma authService_logout_effect (w : World) :
  browser_state (snd (authService_logout w)) = browser_state w.
Proof.
  unfold authService_logout, api_post, bind.
  destruct (api_request_effect "POST" "/auth/logout" VUndefined w) as (hs & Hb & _).
  destruct (api_request _ _ _ w) as [[r | x] w1]; simpl in *; exact Hb.
Qed.

Lemma get_not_nullish (v : value) (k : string) :
  nullish v = false -> get v k = Normal (get_opt v k).
Proof. destruct v; simpl; intros H; try discriminate; reflexivity. Qed.

(** What [adopt] does with a payload that is neither [null] nor
    [undefined]. *)
Lemma adopt_not_nullish (data : value) (w : World) :
  nullish data = false ->
  adopt data w
  = (Done tt,
     mkWorld (get_opt data "user") (get_opt data "accessToken") (isLoading w)
       (<[AUTH_STORAGE_KEY :=
            JSON_stringify (VObj [("user", get_opt data "user");
                                  ("accessToken", get_opt data "accessToken")])]>
          (localStorage w))
       (server w) (sent w)).
Proof.
  intros Hn. unfold adopt, lift. rewrite !(get_not_nullish _ _ Hn). reflexivity.
Qed.

Lemma bind_run {A B : Type} (m : M A) (k : A -> M B) (w : World) :
  bind m k w
  = match m w with
    | (Done a, w') => k a w'
    | (Raised x, w') => (Raised x, w')
    end.
Proof. reflexivity. Qed.

Lemma try_finally_setIsLoading {A : Type} (body : M A) (b : bool) (w : World) :
  try_finally body (setIsLoading b) w
  = (fst (body w), snd (setIsLoading b (snd (body w)))).
Proof. unfold try_finally. destruct (body w). reflexivity. Qed.

Lemma authService_login_effect (email password : string) (w : World) :
  browser_state (snd (authService_login email password w)) = browser_state w.
Proof.
  destruct (call_effect "POST" "/auth/login"
              (VObj [("email", VStr email); ("password", VStr password)]) w)
    as (hs & Hb & _).
  exact Hb.
Qed.

Lemma authService_login_done (email password : string) (w : World) (data : value) :
  fst (authService_login email password w) = Done data -> nullish data = false.
Proof. apply call_done. Qed.

Lemma authService_register_effect (name email password : string) (w : World) :
  browser_state (snd (authService_register name email password w)) = browser_state w.
Proof.
  destruct (call_effect "POST" "/auth/register"
              (VObj [("name", VStr name); ("email", VStr email); ("password", VStr password)]) w)
    as (hs & Hb & _).
  exact Hb.
Qed.

Lemma authService_verify_effect (w : World) :
  browser_state (snd (authService_verify w)) = browser_state w.
Proof.
  destruct (call_effect "GET" "/auth/verify" VUndefined w) as (hs & Hb & _).
  exact Hb.
Qed.

Lemma authService_verify_done (w : World) (response : value) :
  fst (authService_verify w) = Done response -> nullish response = false.
Proof. apply call_done. Qed.

(** The part [login] and [register] share: log in, then adopt the reply.
    It rejects with the browser state untouched, or returns with the pair
    of the reply installed. *)
Lemma login_and_adopt (email password : string) (w : World) :
  let result := (data <- authService_login email password ;; adopt data)%async w in
  isLoading (snd result) = isLoading w /\
  match fst result with
  | Raised _ => browser_state (snd result) = browser_state w
  | Done _ =>
      exists u a,
        user (snd result) = u /\ accessToken (snd result) = a /\
        localStorage (snd result) = <[AUTH_STORAGE_KEY := stored_pair u a]> (localStorage w)
  end.
Proof.
  pose proof (authService_login_effect email password w) as Hb.
  pose proof (authService_login_done email password w) as Hd.
  unfold bind. destruct (authService_login email password w) as [[data | x] w2];
    simpl in Hb, Hd; unfold browser_state in Hb; injection Hb as Hu Ha Hl Hs.
  - rewrite (adopt_not_nullish data w2 (Hd data eq_refl)). simpl.
    split; [exact Hl |]. eexists _, _. repeat split. rewrite Hs. reflexivity.
  - simpl. split; [exact Hl |]. unfold browser_state. congruence.
Qed.

(** How [login] ends: it rejects and leaves the session as it was, or it
    returns and the session is the pair taken from the reply. Either way
    the loading flag is down. *)
Lemma login_outcome (email password : string) (w : World) :
  isLoading (snd (login email password w)) = false /\
  match fst (login email password w) with
  | Raised _ => session (snd (login email password w)) = session w
  | Done _ =>
      exists u a,
        user (snd (login email password w)) = u /\
        accessToken (snd (login email password w)) = a /\
        localStorage (snd (login email password w))
        = <[AUTH_STORAGE_KEY := stored_pair u a]> (localStorage w)
  end.
Proof.
  set (w1 := mkWorld (user w) (accessToken w) true (localStorage w) (server w) (sent w)).
  assert (Heq : login email password w
                = try_finally (data <- authService_login email password ;; adopt data)%async
                    (setIsLoading false) w1) by reflexivity.
  rewrite Heq, try_finally_setIsLoading. clear Heq.
  destruct (login_and_adopt email password w1) as [_ H].
  simpl in *. split; [reflexivity |].
  destruct (fst _) as [[] | x].
  - destruct H as (u & a & Hu & Ha & Hs). exists u, a. auto.
  - unfold browser_state in H. injection H as Hu Ha _ Hs.
    unfold session. simpl. rewrite Hu, Ha, Hs. reflexivity.
Qed.

(** [register] ends like [login]: the registration request writes nothing. *)
Lemma register_outcome (name email password : string) (w : World) :
  isLoading (snd (register name email password w)) = false /\
  match fst (register name email password w) with
  | Raised _ => session (snd (register name email password w)) = session w
  | Done _ =>
      exists u a,
        user (snd (register name email password w)) = u /\
        accessToken (snd (register name email password w)) = a /\
        localStorage (snd (register name email password w))
        = <[AUTH_STORAGE_KEY := stored_pair u a]> (localStorage w)
  end.
Proof.
  set (w1 := mkWorld (user w) (accessToken w) true (localStorage w) (server w) (sent w)).
  assert (Heq : register name email password w
                = try_finally
                    (authService_register name email password ;;
                     data <- authService_login email password ;; adopt data)%async
                    (setIsLoading false) w1) by reflexivity.
  rewrite Heq, try_finally_setIsLoading. clear Heq.
  pose proof (authService_register_effect name email password w1) as Hb.
  rewrite bind_run.
  destruct (authService_register name email password w1) as [[v | x] w2];
    simpl in Hb; unfold browser_state in Hb; injection Hb as Hu Ha Hl Hs.
  - destruct (login_and_adopt email password w2) as [_ H].
    simpl in *. split; [reflexivity |].
    destruct (fst _) as [[] | x].
    + destruct H as (u & a & Hu' & Ha' & Hs'). exists u, a. rewrite Hs in Hs'. auto.
    + unfold browser_state in H. injection H as Hu' Ha' _ Hs'.
      unfold session. simpl. congruence.
  - simpl. split; [reflexivity |]. unfold session. simpl. congruence.
Qed.

(** The [try] block of [refreshSession] for a captured token: nothing is
    written unless the reply is valid and names a user; then that user is
    adopted and stored next to the captured token. *)
Lemma verify_and_store (token : value) (w : World) :
  let result :=
    (response <- authService_verify ;;
     valid <- lift (get response "valid") ;;
     if truthy valid then
       responseUser <- lift (get response "user") ;;
       if truthy responseUser then
         setUser responseUser ;;
         persistAuth (VObj [("user", responseUser); ("accessToken", token)])
       else ret tt
     else ret tt)%async w in
  isLoading (snd result) = isLoading w /\
  accessToken (snd result) = accessToken w /\
  match fst result with
  | Raised _ => browser_state (snd result) = browser_state w
  | Done _ =>
      browser_state (snd result) = browser_state w \/
      exists u,
        user (snd result) = u /\
        localStorage (snd result) = <[AUTH_STORAGE_KEY := stored_pair u token]> (localStorage w)
  end.
Proof.
  pose proof (authService_verify_effect w) as Hb.
  pose proof (authService_verify_done w) as Hd.
  unfold bind. destruct (authService_verify w) as [[response | x] w2];
    simpl in Hb, Hd; unfold browser_state in Hb; injection Hb as Hu Ha Hl Hs.
  - rewrite !(get_not_nullish _ _ (Hd response eq_refl)). simpl.
    destruct (truthy (get_opt response "valid")); simpl.
    + destruct (truthy (get_opt response "user")); simpl.
      * repeat split; try assumption. right. eexists. split; [reflexivity |].
        rewrite Hs. reflexivity.
      * repeat split; try assumption. left. unfold browser_state. congruence.
    + repeat split; try assumption. left. unfold browser_state. congruence.
  - simpl. repeat split; try assumption. unfold browser_state. congruence.
Qed.

Lemma refreshSession_no_token (w : World) :
  truthy (accessToken w) = false -> refreshSession w = (Done tt, w).
Proof. intros H. unfold refreshSession. rewrite H. reflexivity. Qed.

(** How [refreshSession] ends: a rejection leaves the session as it was;
    the token is never changed; the stored entry is left or becomes the
    pair of the verified user and the current token. *)
Lemma refreshSession_outcome (w : World) :
  accessToken (snd (refreshSession w)) = accessToken w /\
  match fst (refreshSession w) with
  | Raised _ =>
      session (snd (refreshSession w)) = session w /\
      isLoading (snd (refreshSession w)) = false
  | Done _ =>
      session (snd (refreshSession w)) = session w \/
      exists u,
        user (snd (refreshSession w)) = u /\
        localStorage (snd (refreshSession w))
        = <[AUTH_STORAGE_KEY := stored_pair u (accessToken w)]> (localStorage w)
  end.
Proof.
  destruct (truthy (accessToken w)) eqn:Ht.
  2:{ rewrite (refreshSession_no_token w Ht). simpl. auto. }
  set (w1 := mkWorld (user w) (accessToken w) true (localStorage w) (server w) (sent w)).
  assert (Heq : refreshSession w
                = try_finally
                    (response <- authService_verify ;;
                     valid <- lift (get response "valid") ;;
                     if truthy valid then
                       responseUser <- lift (get response "user") ;;
                       if truthy responseUser then
                         setUser responseUser ;;
                         persistAuth (VObj [("user", responseUser);
                                            ("accessToken", accessToken w)])
                       else ret tt
                     else ret tt)%async
                    (setIsLoading false) w1).
  { unfold refreshSession. rewrite Ht. reflexivity. }
  rewrite Heq, try_finally_setIsLoading. clear Heq.
  destruct (verify_and_store (accessToken w) w1) as (_ & Ha & H).
  simpl in *. split; [exact Ha |].
  destruct (fst _) as [[] | x].
  - destruct H as [H | (u & Hu & Hs)].
    + left. unfold browser_state in H. injection H as Hu _ _ Hs.
      unfold session. simpl. congruence.
    + right. exists u. auto.
  - split; [| reflexivity]. unfold browser_state in H. injection H as Hu _ _ Hs.
    unfold session. simpl. congruence.
Qed.

(** How [logout] ends: the finalizer has cleared everything, and the
    outcome is that of the request. *)
Lemma logout_outcome (w : World) :
  browser_state (snd (logout w)) = (VNull, VNull, false, delete AUTH_STORAGE_KEY (localStorage w)) /\
  fst (logout w)
  = match server w with
    | Responded r :: _ =>
        if validateStatus (status r) then Done tt else Raised (AxiosError (Some (status r)))
    | _ => Raised (AxiosError None)
    end.
Proof.
  set (w1 := mkWorld (user w) (accessToken w) true (localStorage w) (server w) (sent w)).
  pose proof (api_request_outcome "POST" "/auth/logout" VUndefined w1) as Hout.
  pose proof (api_request_effect "POST" "/auth/logout" VUndefined w1) as (hs & Hb & _).
  change (server w1) with (server w) in Hout.
  unfold logout, authService_logout, api_post, bind, try_finally, setIsLoading, setUser,
    setAccessToken, localStorage_removeItem, with_storage, ret.
  fold w1.
  destruct (api_request "POST" "/auth/logout" VUndefined w1) as [[r | x] w2]; simpl in *;
    unfold browser_state in *; simpl in *; injection Hb as _ _ _ ->; (split; [reflexivity |]).
  - destruct (server w) as [| [r' |] rest]; try discriminate.
    destruct (validateStatus (status r')); [reflexivity | discriminate].
  - destruct (server w) as [| [r' |] rest]; try congruence.
    destruct (validateStatus (status r')); [discriminate | congruence].
Qed.

(** Once [logout] is over there is no token, so the session check that the
    effect of [AuthProvider] starts next does nothing. *)
Lemma refreshSession_after_logout (w : World) :
  refreshSession (snd (logout w)) = (Done tt, snd (logout w)).
Proof.
  apply refreshSession_no_token.
  destruct (logout_outcome w) as [Hb _]. unfold browser_state in Hb.
  injection Hb as _ -> _ _. reflexivity.
Qed.

(** C10. [logout] always ends with the local session cleared: [user] and
    [accessToken] are [null], the [webide.auth] entry is gone and the
    loading flag is down, whether [POST /auth/logout] resolved or
    rejected (the rejection, if any, is still passed on). *)
Theorem logout_always_clears_session (w : World) :
  user (snd (logout w)) = VNull /\
  accessToken (snd (logout w)) = VNull /\
  localStorage (snd (logout w)) !! AUTH_STORAGE_KEY = None /\
  isLoading (snd (logout w)) = false /\
  fst (logout w)
  = match server w with
    | Responded r :: _ =>
        if validateStatus (status r) then Done tt else Raised (AxiosError (Some (status r)))
    | _ => Raised (AxiosError None)
    end.
Proof.
  destruct (logout_outcome w) as [Hb Hout]. unfold browser_state in Hb.
  injection Hb as -> -> -> ->.
  repeat split; [apply lookup_delete_eq | exact Hout].
Qed.

Lemma stored_pair_only_user_and_token (u t : value) :
  only_user_and_token (Some (stored_pair u t)) = true.
Proof. destruct u; destruct t; reflexivity. Qed.

(** What one operation can do to the stored entry: leave it, remove it, or
    replace it by a user/token pair. *)
Lemma perform_entry (o : operation) (w : World) :
  let entry := localStorage (snd (perform o w)) !! AUTH_STORAGE_KEY in
  entry = localStorage w !! AUTH_STORAGE_KEY \/
  entry = None \/
  exists u a, entry = Some (stored_pair u a).
Proof.
  destruct o as [email password | name email password | |]; simpl.
  - destruct (login_outcome email password w) as [_ H].
    destruct (fst (login email password w)) as [[] | x].
    + destruct H as (u & a & _ & _ & ->). right. right. exists u, a.
      apply lookup_insert_eq.
    + left. unfold session in H. congruence.
  - destruct (register_outcome name email password w) as [_ H].
    destruct (fst (register name email password w)) as [[] | x].
    + destruct H as (u & a & _ & _ & ->). right. right. exists u, a.
      apply lookup_insert_eq.
    + left. unfold session in H. congruence.
  - destruct (refreshSession_outcome w) as [_ H].
    destruct (fst (refreshSession w)) as [[] | x].
    + destruct H as [H | (u & _ & ->)].
      * left. unfold session in H. congruence.
      * right. right. exists u, (accessToken w). apply lookup_insert_eq.
    + left. destruct H as [H _]. unfold session in H. congruence.
  - right. left. destruct (logout_outcome w) as [Hb _]. unfold browser_state in Hb.
    injection Hb as _ _ _ ->. apply lookup_delete_eq.
Qed.

Lemma perform_all_entry (ops : list operation) (w : World) :
  only_user_and_token (localStorage w !! AUTH_STORAGE_KEY) = true ->
  only_user_and_token (localStorage (perform_all ops w) !! AUTH_STORAGE_KEY) = true.
Proof.
  revert w. induction ops as [| o ops IH]; intros w Hw; simpl; [exact Hw |].
  apply IH. destruct (perform_entry o w) as [-> | [-> | (u & a & ->)]].
  - exact Hw.
  - reflexivity.
  - apply stored_pair_only_user_and_token.
Qed.

(** A reply with a 2xx status and a payload resolves a call with the
    payload taken out of its [data] envelope; any other status rejects it
    with that status. *)
Lemma call_reply (m u : string) (b : value) (w : World) (r : Response) (rest : list reply) :
  server w = Responded r :: rest ->
  validateStatus (status r) = true ->
  nullish (data r) = false ->
  fst ((response <- api_request m u b ;; unwrap response)%async w)
  = Done (coalesce (get_opt (data r) "data") (data r)).
Proof.
  intros Hserver Hvalid Hdata. rewrite bind_run.
  pose proof (api_request_outcome m u b w) as Hout.
  rewrite Hserver, Hvalid in Hout.
  destruct (api_request _ _ _ w) as [[r' | x] w']; simpl in Hout; [| discriminate].
  injection Hout as ->. unfold unwrap, lift.
  rewrite (get_not_nullish _ _ Hdata). reflexivity.
Qed.

Lemma call_rejected (m u : string) (b : value) (w : World) (r : Response) (rest : list reply) :
  server w = Responded r :: rest ->
  validateStatus (status r) = false ->
  fst ((response <- api_request m u b ;; unwrap response)%async w)
  = Raised (AxiosError (Some (status r))).
Proof.
  intros Hserver Hvalid. rewrite bind_run.
  pose proof (api_request_outcome m u b w) as Hout.
  rewrite Hserver, Hvalid in Hout.
  destruct (api_request _ _ _ w) as [[r' | x] w']; simpl in Hout; [discriminate |].
  simpl. injection Hout as ->. reflexivity.
Qed.

Lemma authService_login_reply (email password : string) (w : World) (r : Response)
    (rest : list reply) :
  server w = Responded r :: rest ->
  validateStatus (status r) = true ->
  nullish (data r) = false ->
  fst (authService_login email password w)
  = Done (coalesce (get_opt (data r) "data") (data r)).
Proof. apply call_reply. Qed.

(** A successful [login] stores the [user] and [accessToken] of the reply
    and nothing else of it. *)
Lemma login_reply (email password : string) (w : World) (r : Response) (rest : list reply) :
  server w = Responded r :: rest ->
  validateStatus (status r) = true ->
  nullish (data r) = false ->
  let payload := coalesce (get_opt (data r) "data") (data r) in
  fst (login email password w) = Done tt /\
  user (snd (login email password w)) = get_opt payload "user" /\
  accessToken (snd (login email password w)) = get_opt payload "accessToken" /\
  localStorage (snd (login email password w)) !! AUTH_STORAGE_KEY
  = Some (stored_pair (get_opt payload "user") (get_opt payload "accessToken")).
Proof.
  intros Hserver Hvalid Hdata payload.
  set (w1 := mkWorld (user w) (accessToken w) true (localStorage w) (server w) (sent w)).
  assert (Heq : login email password w
                = try_finally (data <- authService_login email password ;; adopt data)%async
                    (setIsLoading false) w1) by reflexivity.
  rewrite Heq, try_finally_setIsLoading, bind_run. clear Heq.
  pose proof (authService_login_reply email password w1 r rest Hserver Hvalid Hdata) as Hr.
  pose proof (authService_login_done email password w1) as Hd.
  destruct (authService_login email password w1) as [[data | x] w2]; simpl in Hr, Hd;
    [| discriminate].
  injection Hr as ->. fold payload in Hd |- *.
  rewrite (adopt_not_nullish payload w2 (Hd payload eq_refl)). simpl.
  repeat split. apply lookup_insert_eq.
Qed.


(** A reply with a status outside [200, 300), 401 like any other, rejects
    [login] with that status. *)
Lemma login_rejected (email password : string) (w : World) (r : Response) (rest : list reply) :
  server w = Responded r :: rest ->
  validateStatus (status r) = false ->
  fst (login email password w) = Raised (AxiosError (Some (status r))).
Proof.
  intros Hserver Hvalid.
  set (w1 := mkWorld (user w) (accessToken w) true (localStorage w) (server w) (sent w)).
  assert (Heq : login email password w
                = try_finally (data <- authService_login email password ;; adopt data)%async
                    (setIsLoading false) w1) by reflexivity.
  rewrite Heq, try_finally_setIsLoading, bind_run. clear Heq. simpl.
  pose proof (call_rejected "POST" "/auth/login"
                (VObj [("email", VStr email); ("password", VStr password)])
                w1 r rest Hserver Hvalid) as Hr.
  fold (api_post "/auth/login" (VObj [("email", VStr email); ("password", VStr password)])) in Hr.
  fold (authService_login email password) in Hr.
  destruct (authService_login email password w1) as [[data | x] w2]; simpl in Hr;
    [discriminate |].
  simpl. injection Hr as ->. reflexivity.
Qed.

Lemma perform_rejected (o : operation) (w : World) (x : exn) :
  o <> Logout ->
  fst (perform o w) = Raised x ->
  session (snd (perform o w)) = session w /\ isLoading (snd (perform o w)) = false.
Proof.
  intros Ho Hx. destruct o as [email password | name email password | |]; simpl in *.
  - destruct (login_outcome email password w) as [Hl H]. rewrite Hx in H. auto.
  - destruct (register_outcome name email password w) as [Hl H]. rewrite Hx in H. auto.
  - destruct (refreshSession_outcome w) as [_ H]. rewrite Hx in H. exact H.
  - contradiction.
Qed.

(** C3 (amended). No reply status clears the session by itself. When
    [login], [register] or [refreshSession] rejects, for a 401 as for any
    other failure, the user, the token and the stored entry are what they
    were and only the loading flag is reset; a status outside 2xx rejects
    [login] with that status; the login page then shows its inline message
    and stays where it is; [ProtectedRoute] sends to [/login] exactly when
    nothing is loading and there is no user. *)
Theorem rejected_request_keeps_session (o : operation) (w : World) (x : exn)
    (email password : string) (p : Page) (r : Response) (rest : list reply) :
  (o <> Logout ->
   fst (perform o w) = Raised x ->
   session (snd (perform o w)) = session w /\ isLoading (snd (perform o w)) = false) /\
  (server w = Responded r :: rest ->
   validateStatus (status r) = false ->
   fst (login email password w) = Raised (AxiosError (Some (status r))) /\
   LoginPage_handleSubmit email password p w
   = (mkPage (Some "Unable to sign in. Check your credentials and try again.") (route p),
      snd (login email password w))) /\
  (ProtectedRoute w = NavigateTo "/login" <->
   isLoading w = false /\ truthy (user w) = false).
Proof.
  split; [apply perform_rejected |]. split.
  - intros Hserver Hvalid.
    pose proof (login_rejected email password w r rest Hserver Hvalid) as Hrej.
    split; [exact Hrej |].
    unfold LoginPage_handleSubmit.
    destruct (login email password w) as [[[] | x'] w']; simpl in *; [discriminate | reflexivity].
  - unfold ProtectedRoute. destruct (isLoading w), (truthy (user w)); simpl;
      split; intros H; try discriminate; try tauto; destruct H; discriminate.
Qed.

(** C8 (amended). [authService.register] sends one [POST /auth/register]
    whose body has the fields [name], [email] and [password]; a 2xx reply
    resolves it with the payload of the reply, any other status rejects
    it. *)
Theorem register_request (name email password : string) (w : World)
    (r : Response) (rest : list reply) :
  (exists hs,
     sent (snd (authService_register name email password w))
     = (sent w ++ [mkRequest "POST" "/auth/register"
                     (VObj [("name", VStr name); ("email", VStr email);
                            ("password", VStr password)]) hs])%list) /\
  (server w = Responded r :: rest ->
   validateStatus (status r) = true ->
   nullish (data r) = false ->
   fst (authService_register name email password w)
   = Done (coalesce (get_opt (data r) "data") (data r))) /\
  (server w = Responded r :: rest ->
   validateStatus (status r) = false ->
   fst (authService_register name email password w)
   = Raised (AxiosError (Some (status r)))).
Proof.
  split; [| split].
  - destruct (call_effect "POST" "/auth/register"
                (VObj [("name", VStr name); ("email", VStr email); ("password", VStr password)]) w)
      as (hs & _ & Hs & _).
    exists hs. exact Hs.
  - apply call_reply.
  - apply call_rejected.
Qed.

End FrontendFacts.

(** ** Closed instances *)

Section Instances.

Import RefreshStore Frontend Samples.

Example ms_spans :
  Jwt.ms "24h" = Some 86400000 /\ Jwt.ms "30d" = Some 2592000000 /\
  Jwt.ms "15m" = Some 900000 /\ Jwt.ms "soon" = None.
Proof. repeat split. Qed.

(** [jwt.verify] tells the reasons apart; [verifyToken] does not. *)
Example verify_reasons :
  let header := VObj [("alg", VStr "HS256"); ("typ", VStr "JWT")] in
  let payload := VObj [("sub", VStr "user-1"); ("exp", VNum 2000)] in
  let secret := Jwt.JWT_SECRET config in
  Jwt.verify key_tag (Jwt.NotJws "garbage") secret 1000
  = Throw (Jwt.JsonWebTokenError "jwt malformed") /\
  Jwt.verify key_tag (Jwt.Jws header payload "forged") secret 1000
  = Throw (Jwt.JsonWebTokenError "invalid signature") /\
  Jwt.verify key_tag (Jwt.Jws header payload secret) secret 3000
  = Throw Jwt.TokenExpiredError /\
  Jwt.verify key_tag (Jwt.Jws header payload secret) secret 1000 = Normal payload /\
  Jwt.verifyToken key_tag config (Jwt.NotJws "garbage") 1000
  = Throw (Error "Invalid token") /\
  Jwt.verifyToken key_tag config (Jwt.Jws header payload "forged") 1000
  = Throw (Error "Invalid token") /\
  Jwt.verifyToken key_tag config (Jwt.Jws header payload secret) 3000
  = Throw (Error "Invalid token").
Proof. repeat split. Qed.



(** C2, as stated, fails: the token issued at 1672531200 expires at
    1672617600, a lifetime of 86400 seconds, which is not below one hour. *)
Lemma access_token_lifetime_is_a_day :
  exists tok,
    Jwt.generateAccessToken key_tag config "user-1" "user@example.com" 1672531200
    = Normal tok /\
    get (Jwt.claims tok) "iat" = Normal (VNum 1672531200) /\
    get (Jwt.claims tok) "exp" = Normal (VNum 1672617600) /\
    ~ Jwt.minutes_not_hours (1672617600 - 1672531200).
Proof.
  eexists. split; [reflexivity |]. repeat split.
  unfold Jwt.minutes_not_hours. lia.
Qed.

Lemma access_token_expires_after_24h_witness :
  Jwt.JWT_SECRET config <> "" /\
  exists tok iat exp,
    Jwt.generateAccessToken key_tag config "user-1" "user@example.com" 1672531200
    = Normal tok /\
    get (Jwt.claims tok) "iat" = Normal (VNum iat) /\
    get (Jwt.claims tok) "exp" = Normal (VNum exp) /\
    iat = 1672531200 /\
    exp - iat = 24 * 3600.
Proof.
  split; [discriminate |].
  apply (access_token_expires_after_24h key_tag config "user-1" "user@example.com" 1672531200).
  discriminate.
Defined.

(** C4, as stated, fails: the token issued for a user has no [username]
    claim. *)
Lemma access_token_has_no_username :
  exists tok,
    Jwt.generateAccessToken key_tag config "user-1" "user@example.com" 1672531200
    = Normal tok /\
    has_key (Jwt.claims tok) "username" = false /\
    get (Jwt.claims tok) "username" = Normal VUndefined.
Proof. eexists. split; [reflexivity |]. split; reflexivity. Qed.

Lemma access_token_claims_witness :
  Jwt.JWT_SECRET config <> "" /\
  exists tok,
    Jwt.generateAccessToken key_tag config "user-1" "user@example.com" 1672531200
    = Normal tok /\
    keys (Jwt.claims tok) = ["sub"; "email"; "type"; "iat"; "exp"] /\
    get (Jwt.claims tok) "sub" = Normal (VStr "user-1") /\
    get (Jwt.claims tok) "email" = Normal (VStr "user@example.com") /\
    get (Jwt.claims tok) "type" = Normal (VStr "access") /\
    get (Jwt.claims tok) "iat" = Normal (VNum 1672531200) /\
    has_key (Jwt.claims tok) "username" = false.
Proof.
  split; [discriminate |].
  apply (access_token_claims key_tag config "user-1" "user@example.com" 1672531200).
  discriminate.
Defined.



(** C6, as stated, fails for every digest: two passwords that share their
    first 72 bytes verify against each other's hashes. *)
Lemma long_passwords_verify_alike :
  ~ exists eksblowfish : Z -> string -> string -> string,
      forall password wrong salt,
        (1 <= String.length password)%nat ->
        wrong <> password ->
        Bcrypt.verifyPassword eksblowfish wrong
          (Bcrypt.hashPassword eksblowfish password salt) = false.
Proof.
  intros [eks H].
  specialize (H long_password other_long_password "salt").
  rewrite verifyPassword_same_key in H by reflexivity.
  assert (Hlen : (1 <= String.length long_password)%nat) by (vm_compute; lia).
  assert (Hne : other_long_password <> long_password) by (vm_compute; discriminate).
  specialize (H Hlen Hne). discriminate.
Qed.

Lemma verifyPassword_correct_witness :
  key_digest 12 "salt" (Bcrypt.key_of "2b" "str0ngP@ssw0rd!")
  <> key_digest 12 "salt" (Bcrypt.key_of "2b" "Str0ngP@ssw0rd!") /\
  Bcrypt.verifyPassword key_digest "Str0ngP@ssw0rd!"
    (Bcrypt.hashPassword key_digest "Str0ngP@ssw0rd!" "salt") = true /\
  Bcrypt.verifyPassword key_digest "str0ngP@ssw0rd!"
    (Bcrypt.hashPassword key_digest "Str0ngP@ssw0rd!" "salt") = false /\
  (72 <= String.length long_password)%nat /\
  (72 <= String.length other_long_password)%nat /\
  String.substring 0 72 other_long_password = String.substring 0 72 long_password /\
  Bcrypt.verifyPassword key_digest other_long_password
    (Bcrypt.hashPassword key_digest long_password "salt") = true /\
  (2 * String.length "secret" + 1 <= 72)%nat /\
  Bcrypt.verifyPassword key_digest ("secret" +:+ String Ascii.zero "secret")
    (Bcrypt.hashPassword key_digest "secret" "salt") = true.
Proof.
  assert (Hshort : (2 * String.length "secret" + 1 <= 72)%nat) by (vm_compute; lia).
  destruct (verifyPassword_correct key_digest "secret"
              ("secret" +:+ String Ascii.zero "secret") "salt")
    as (_ & _ & _ & _ & Hrepeat).
  assert (Hne : key_digest 12 "salt" (Bcrypt.key_of "2b" "str0ngP@ssw0rd!")
                <> key_digest 12 "salt" (Bcrypt.key_of "2b" "Str0ngP@ssw0rd!"))
    by (vm_compute; discriminate).
  assert (Hp : (72 <= String.length long_password)%nat) by (vm_compute; lia).
  assert (Hw : (72 <= String.length other_long_password)%nat) by (vm_compute; lia).
  assert (Hpre : String.substring 0 72 other_long_password
                 = String.substring 0 72 long_password) by reflexivity.
  destruct (verifyPassword_correct key_digest "Str0ngP@ssw0rd!" "str0ngP@ssw0rd!" "salt")
    as (Hown & Hwrong & _ & _ & _).
  destruct (verifyPassword_correct key_digest long_password other_long_password "salt")
    as (_ & _ & _ & Hlong & _).
  split; [exact Hne |]. split; [exact Hown |]. split; [exact (proj2 Hwrong Hne) |].
  split; [exact Hp |]. split; [exact Hw |]. split; [exact Hpre |].
  split; [exact (Hlong Hp Hw Hpre) |].
  split; [exact Hshort | exact (Hrepeat Hshort eq_refl)].
Defined.

Lemma rotated_token_is_rejected_witness :
  unique_hashes table_after_login /\
  refresh hash_token refresh_ttl "r1" 500 "r2" table_after_login
  = (inr ("r2", 1%nat), table_after_refresh) /\
  refresh hash_token refresh_ttl "r1" 600 "r3" table_after_refresh
  = (inl Unauthorized, table_after_refresh).
Proof.
  assert (Hu : unique_hashes table_after_login) by (apply NoDup_singleton).
  assert (Hr : refresh hash_token refresh_ttl "r1" 500 "r2" table_after_login
               = (inr ("r2", 1%nat), table_after_refresh)) by (vm_compute; reflexivity).
  split; [exact Hu |]. split; [exact Hr |].
  exact (proj1 (rotated_token_is_rejected hash_token refresh_ttl table_after_login
                  table_after_refresh "r1" "r2" "r2" 500 1%nat Hu Hr) 600 "r3").
Defined.

(** C3, as stated, fails: a signed-in browser whose session check is
    answered 401 keeps its user, its token and its stored entry, and
    [ProtectedRoute] goes on showing the protected page. *)
Lemma unauthorized_reply_keeps_session :
  fst (refreshSession signed_in) = Raised (AxiosError (Some 401)) /\
  user (snd (refreshSession signed_in)) = alice /\
  accessToken (snd (refreshSession signed_in)) = VStr "access-1" /\
  localStorage (snd (refreshSession signed_in)) !! AUTH_STORAGE_KEY
  = Some (stored_pair alice (VStr "access-1")) /\
  ProtectedRoute (snd (refreshSession signed_in)) = Children.
Proof. vm_compute. repeat split. Qed.

Lemma rejected_request_keeps_session_witness :
  RefreshSession <> Logout /\
  fst (perform RefreshSession signed_in) = Raised (AxiosError (Some 401)) /\
  server signed_in = [Responded unauthorized] /\
  validateStatus (status unauthorized) = false /\
  session (snd (perform RefreshSession signed_in)) = session signed_in /\
  isLoading (snd (perform RefreshSession signed_in)) = false /\
  fst (login "alice@example.com" "wrong" signed_in) = Raised (AxiosError (Some 401)).
Proof.
  assert (Hop : RefreshSession <> Logout) by discriminate.
  assert (Hx : fst (perform RefreshSession signed_in) = Raised (AxiosError (Some 401)))
    by (vm_compute; reflexivity).
  assert (Hs : server signed_in = [Responded unauthorized]) by reflexivity.
  assert (Hv : validateStatus (status unauthorized) = false) by reflexivity.
  destruct (rejected_request_keeps_session RefreshSession signed_in (AxiosError (Some 401))
              "alice@example.com" "wrong" (mkPage None "/login") unauthorized [])
    as (Hkeep & Hlogin & _).
  destruct (Hkeep Hop Hx) as [Hsession Hloading].
  destruct (Hlogin Hs Hv) as [Hrej _].
  split; [exact Hop |]. split; [exact Hx |]. split; [exact Hs |]. split; [exact Hv |].
  split; [exact Hsession |]. split; [exact Hloading | exact Hrej].
Defined.

(** C8, as stated, fails: the body [authService.register] posts has the
    fields [name], [email] and [password]; there is no [username]. *)
Lemma register_body_has_no_username :
  exists request,
    sent (snd (authService_register "alice" "alice@example.com" "Str0ngP@ssw0rd!"
                 (fresh_browser created)))
    = [request] /\
    method request = "POST" /\
    url request = "/auth/register" /\
    keys (body request) = ["name"; "email"; "password"] /\
    has_key (body request) "username" = false.
Proof. eexists. split; [vm_compute; reflexivity |]. repeat split. Qed.

Lemma register_request_witness :
  server (fresh_browser created) = [Responded created] /\
  validateStatus (status created) = true /\
  nullish (data created) = false /\
  fst (authService_register "alice" "alice@example.com" "Str0ngP@ssw0rd!"
         (fresh_browser created))
  = Done (VObj [("id", VStr "user-1"); ("email", VStr "alice@example.com");
                ("name", VStr "alice"); ("createdAt", VStr "2024-01-29T10:30:00Z")]) /\
  server (fresh_browser unauthorized) = [Responded unauthorized] /\
  validateStatus (status unauthorized) = false /\
  fst (authService_register "alice" "alice@example.com" "Str0ngP@ssw0rd!"
         (fresh_browser unauthorized))
  = Raised (AxiosError (Some 401)).
Proof.
  destruct (register_request "alice" "alice@example.com" "Str0ngP@ssw0rd!"
              (fresh_browser created) created []) as (_ & Hok & _).
  destruct (register_request "alice" "alice@example.com" "Str0ngP@ssw0rd!"
              (fresh_browser unauthorized) unauthorized []) as (_ & _ & Hbad).
  split; [reflexivity |]. split; [reflexivity |]. split; [reflexivity |].
  split; [exact (Hok eq_refl eq_refl eq_refl) |].
  split; [reflexivity |]. split; [reflexivity |].
  exact (Hbad eq_refl eq_refl).
Defined.


End Instances.

(** * Further properties of the embedded code *)

(** ** JSON values *)

Section JsonFacts.

(** Induction on values that reaches the values inside objects and
    arrays. *)
Lemma value_nested_ind (P : value -> Prop) :
  P VUndefined -> P VNull -> (forall b, P (VBool b)) -> (forall n, P (VNum n)) ->
  (forall s, P (VStr s)) ->
  (forall fields, Forall (fun kv => P (snd kv)) fields -> P (VObj fields)) ->
  (forall items, Forall P items -> P (VArr items)) ->
  forall v, P v.
Proof.
  intros HU HN HB HZ HS HO HA. fix IH 1.
  intros [ | | b | n | s | fields | items];
    [exact HU | exact HN | apply HB | apply HZ | apply HS | | ].
  - apply HO. induction fields as [| [k x] rest IHrest]; constructor;
      [exact (IH x) | exact IHrest].
  - apply HA. induction items as [| x rest IHrest]; constructor;
      [exact (IH x) | exact IHrest].
Qed.

Lemma json_roundtrip_id (v : value) : is_json v = true -> json_roundtrip v = v.
Proof.
  induction v as [ | | b | n | s | fields IH | items IH] using value_nested_ind;
    simpl; intros H; try reflexivity; try discriminate.
  - f_equal. induction IH as [| [k x] rest Hx _ IHrest]; simpl in *; [reflexivity |].
    apply andb_true_iff in H as [Hjx Hrest].
    rewrite (IHrest Hrest).
    destruct x; try discriminate; try reflexivity; f_equal; f_equal; exact (Hx Hjx).
  - f_equal. induction IH as [| x rest Hx _ IHrest]; simpl in *; [reflexivity |].
    apply andb_true_iff in H as [Hjx Hrest].
    rewrite (IHrest Hrest).
    destruct x; try discriminate; try reflexivity; f_equal; exact (Hx Hjx).
Qed.

Lemma assoc_json (k : string) (fields : list (string * value)) :
  is_json (VObj fields) = true ->
  assoc k fields = VUndefined \/ is_json (assoc k fields) = true.
Proof.
  induction fields as [| [k' x] rest IH]; simpl; [auto |].
  intros H. apply andb_true_iff in H as [Hx Hrest].
  destruct (String.eqb k k'); [right; exact Hx | exact (IH Hrest)].
Qed.

Lemma get_opt_json (v : value) (k : string) :
  is_json v = true -> get_opt v k = VUndefined \/ is_json (get_opt v k) = true.
Proof.
  destruct v; simpl; auto. apply assoc_json.
Qed.

Lemma coalesce_json (a b : value) :
  (a = VUndefined \/ is_json a = true) -> is_json b = true -> is_json (coalesce a b) = true.
Proof.
  intros [-> | Ha] Hb; [exact Hb |]. unfold coalesce. destruct (nullish a); assumption.
Qed.

End JsonFacts.

(** ** More on the token helpers *)

Section MoreJwtFacts.

Variable hmac : string -> string -> value -> value -> string.
Variable config : Jwt.Config.

(** X2. A refresh token carries [sub], [type = "refresh"], [iat] and an
    [exp] thirty days later, and nothing else: no email and no token id. *)
Theorem refresh_token_claims (userId : string) (now : Z) :
  Jwt.JWT_REFRESH_SECRET config <> "" ->
  exists tok,
    Jwt.generateRefreshToken hmac config userId now = Normal tok /\
    keys (Jwt.claims tok) = ["sub"; "type"; "iat"; "exp"] /\
    get (Jwt.claims tok) "sub" = Normal (VStr userId) /\
    get (Jwt.claims tok) "type" = Normal (VStr "refresh") /\
    get (Jwt.claims tok) "iat" = Normal (VNum now) /\
    get (Jwt.claims tok) "exp" = Normal (VNum (now + 30 * 86400)).
Proof.
  intros Hsecret. eexists. split.
  - apply generateRefreshToken_returns, Hsecret.
  - repeat split.
Qed.

(** What [jwt.verify] has checked when it returns. *)
Lemma verify_accepts_inv (tok : Jwt.token) (secret : string) (now : Z) (p : value) :
  Jwt.verify hmac tok secret now = Normal p ->
  exists header sig alg,
    tok = Jwt.Jws header p sig /\
    In alg Jwt.supported_algorithms /\
    get_opt header "alg" = VStr alg /\
    sig = hmac alg secret header p /\
    sig <> "" /\
    Jwt.check_nbf p now = Normal tt /\
    Jwt.check_exp p now = Normal tt.
Proof.
  destruct tok as [header payload sig | raw]; cbn -[existsb String.eqb get_opt].
  2:{ destruct (String.eqb raw ""); discriminate. }
  destruct (String.eqb sig "") eqn:Hsig; [discriminate |].
  destruct (get_opt header "alg") as [ | | | | alg | | ] eqn:Halg; try discriminate.
  destruct (existsb (String.eqb alg) Jwt.supported_algorithms) eqn:Hsup; [| discriminate].
  destruct (String.eqb sig (hmac alg secret header payload)) eqn:Hmac; [| discriminate].
  simpl.
  destruct (Jwt.check_nbf payload now) as [[] | e] eqn:Hnbf; [| discriminate]. simpl.
  destruct (Jwt.check_exp payload now) as [[] | e] eqn:Hexp; [| discriminate]. simpl.
  intros H. injection H as <-.
  exists header, sig, alg. repeat split; auto.
  - apply existsb_exists in Hsup as (a & Hin & Ha).
    apply String.eqb_eq in Ha. subst a. exact Hin.
  - apply String.eqb_eq, Hmac.
  - apply String.eqb_neq, Hsig.
Qed.

Lemma verifyToken_accepts_inv (tok : Jwt.token) (now : Z) (p : value) :
  Jwt.verifyToken hmac config tok now = Normal p ->
  Jwt.verify hmac tok (Jwt.JWT_SECRET config) now = Normal p.
Proof.
  unfold Jwt.verifyToken, try_catch.
  destruct (Jwt.verify hmac tok (Jwt.JWT_SECRET config) now); [auto | discriminate].
Qed.

Lemma check_exp_ok (p : value) (now e : Z) :
  Jwt.check_exp p now = Normal tt -> get p "exp" = Normal (VNum e) -> now < e.
Proof.
  unfold Jwt.check_exp. intros H He. rewrite He in H. simpl in H.
  destruct (Z.leb_spec e now); [discriminate | assumption].
Qed.

Lemma check_nbf_ok (p : value) (now n : Z) :
  Jwt.check_nbf p now = Normal tt -> get p "nbf" = Normal (VNum n) -> n <= now.
Proof.
  unfold Jwt.check_nbf. intros H Hn. rewrite Hn in H. simpl in H.
  destruct (Z.ltb_spec now n); [discriminate | assumption].
Qed.

(** X3. An issued access token passes [verifyToken] at every time before
    its expiry and at none from the expiry on: the last second it is good
    for is [iat + 86399]. *)
Theorem access_token_validity_window (userId email : string) (now now' : Z) :
  Jwt.JWT_SECRET config <> "" ->
  (forall alg k header payload, hmac alg k header payload <> "") ->
  exists tok,
    Jwt.generateAccessToken hmac config userId email now = Normal tok /\
    Jwt.verifyToken hmac config tok now'
    = if now' <? now + 86400 then Normal (Jwt.claims tok) else Throw (Error "Invalid token").
Proof.
  intros Hsecret Htag.
  destruct (Z.ltb_spec now' (now + 86400)) as [Hlive | Hdead].
  - destruct (access_token_verifies hmac config userId email now now' Hsecret Htag Hlive)
      as (tok & payload & Hgen & Hver & _).
    exists tok. split; [exact Hgen |]. rewrite Hver. f_equal.
    apply verifyToken_accepts_inv, verify_accepts_inv in Hver
      as (header & sig & alg & -> & _). reflexivity.
  - eexists. split; [apply generateAccessToken_returns, Hsecret |].
    eapply expired_access_token_rejected; [exact Hdead |].
    apply generateAccessToken_returns, Hsecret.
Qed.

(** X4. [verifyToken] returns only for a well-formed token whose header
    names one of HS256, HS384, HS512, whose signature is non-empty and is
    the MAC of its header and payload under [JWT_SECRET], and whose [exp]
    and [nbf], when they are numbers, lie after and not after the clock;
    what it returns is the payload of that token. *)
Theorem verifyToken_accepts_only_signed_live_tokens (tok : Jwt.token) (now : Z) (p : value) :
  Jwt.verifyToken hmac config tok now = Normal p ->
  exists header sig alg,
    tok = Jwt.Jws header p sig /\
    In alg ["HS256"; "HS384"; "HS512"] /\
    get_opt header "alg" = VStr alg /\
    sig = hmac alg (Jwt.JWT_SECRET config) header p /\
    sig <> "" /\
    (forall e, get p "exp" = Normal (VNum e) -> now < e) /\
    (forall n, get p "nbf" = Normal (VNum n) -> n <= now).
Proof.
  intros H. apply verifyToken_accepts_inv, verify_accepts_inv in H
    as (header & sig & alg & Htok & Hin & Halg & Hsig & Hne & Hnbf & Hexp).
  exists header, sig, alg. repeat split; auto.
  - intros e. apply check_exp_ok, Hexp.
  - intros n. apply check_nbf_ok, Hnbf.
Qed.

(** X5. [verifyToken] does not read the [type] claim: when both secrets
    are configured to the same value, every refresh token passes it as an
    access token until the refresh token expires. *)
Theorem verifyToken_ignores_type (userId : string) (now now' : Z) :
  Jwt.JWT_SECRET config = Jwt.JWT_REFRESH_SECRET config ->
  Jwt.JWT_REFRESH_SECRET config <> "" ->
  (forall alg k header payload, hmac alg k header payload <> "") ->
  now' < now + 2592000 ->
  exists tok,
    Jwt.generateRefreshToken hmac config userId now = Normal tok /\
    get (Jwt.claims tok) "type" = Normal (VStr "refresh") /\
    Jwt.verifyToken hmac config tok now' = Normal (Jwt.claims tok).
Proof.
  intros Hsame Hsecret Htag Hlive.
  destruct (shared_secret_accepts_refresh_token hmac config userId now now'
              Hsame Hsecret Htag Hlive) as (tok & Hgen & Hver).
  exists tok. split; [exact Hgen |]. split; [| exact Hver].
  apply generateRefreshToken_inv in Hgen. subst tok. reflexivity.
Qed.

End MoreJwtFacts.

(** ** More on the password helpers *)

Section MorePasswordFacts.

Import Validation.

Lemma test_app (class : N -> bool) (p s : list N) :
  test class (p ++ s) = test class p || test class s.
Proof. unfold test. apply existsb_app. Qed.

Lemma validatePassword_isValid (password : list N) :
  isValid (validatePassword password) = true <->
  (12 <= List.length password)%nat /\
  test upper password = true /\ test lower password = true /\
  test digit password = true /\ test special password = true.
Proof.
  unfold validatePassword, push_if.
  destruct (Nat.ltb_spec (List.length password) 12) as [Hlt | Hge];
    destruct (test upper password), (test lower password),
      (test digit password), (test special password); simpl;
    split; intros Hv; try discriminate; try reflexivity;
    try (repeat split; (reflexivity || lia));
    destruct Hv as (? & ? & ? & ? & ?); try discriminate; lia.
Qed.

Lemma validatePassword_errors (password : list N) (e : string) :
  In e (errors (validatePassword password)) <->
  (e = "Password must be at least 12 characters" /\ (List.length password < 12)%nat) \/
  (e = "Password must contain at least one uppercase letter" /\ test upper password = false) \/
  (e = "Password must contain at least one lowercase letter" /\ test lower password = false) \/
  (e = "Password must contain at least one number" /\ test digit password = false) \/
  (e = "Password must contain at least one special character" /\
   test special password = false).
Proof.
  unfold validatePassword, push_if.
  destruct (Nat.ltb_spec (List.length password) 12) as [Hlt | Hge];
    destruct (test upper password), (test lower password),
      (test digit password), (test special password); simpl;
    intuition (try discriminate; try lia; auto).
Qed.

(** X1. The password policy has no upper bound and bans no character:
    adding characters before or after a password never adds an error, so a
    valid password stays valid. *)
Theorem validatePassword_extension (password before after : list N) :
  (forall e,
     In e (errors (validatePassword (before ++ password ++ after))) ->
     In e (errors (validatePassword password))) /\
  (isValid (validatePassword password) = true ->
   isValid (validatePassword (before ++ password ++ after)) = true).
Proof.
  split.
  - intros e. rewrite !validatePassword_errors, !test_app, !length_app.
    intros [[-> H] | [[-> H] | [[-> H] | [[-> H] | [-> H]]]]].
    + left. split; [reflexivity | lia].
    + right. left. split; [reflexivity |].
      destruct (test upper password); [| reflexivity].
      rewrite orb_true_l, orb_true_r in H. discriminate.
    + right. right. left. split; [reflexivity |].
      destruct (test lower password); [| reflexivity].
      rewrite orb_true_l, orb_true_r in H. discriminate.
    + right. right. right. left. split; [reflexivity |].
      destruct (test digit password); [| reflexivity].
      rewrite orb_true_l, orb_true_r in H. discriminate.
    + right. right. right. right. split; [reflexivity |].
      destruct (test special password); [| reflexivity].
      rewrite orb_true_l, orb_true_r in H. discriminate.
  - rewrite !validatePassword_isValid. intros (Hlen & Hu & Hl & Hd & Hs).
    rewrite !test_app, Hu, Hl, Hd, Hs, !length_app, !orb_true_r. simpl.
    repeat split. lia.
Qed.

End MorePasswordFacts.

(** ** More on the frontend session *)

Section MoreFrontendFacts.

Import Frontend.

Lemma truthy_coalesce_null (v : value) : truthy (coalesce v VNull) = truthy v.
Proof. destruct v; reflexivity. Qed.

Lemma coalesce_null_truthy (v : value) : truthy v = true -> coalesce v VNull = v.
Proof. destruct v; simpl; try discriminate; reflexivity. Qed.

(** X7. The request interceptor never fails. It adds
    [Authorization: Bearer <token>] exactly when the [webide.auth] entry
    parses as JSON and holds a truthy [accessToken]; with no entry, an
    entry that is no JSON, or an empty token the request leaves as it
    came. *)
Theorem interceptor_attaches_stored_token (store : gmap string item) (config : Request) :
  intercept_request store config
  = Normal match store !! AUTH_STORAGE_KEY with
           | Some (Json v) =>
               if truthy (get_opt v "accessToken") then
                 mkRequest (method config) (url config) (body config)
                   (set_header "Authorization"
                      ("Bearer " +:+ to_string (get_opt v "accessToken")) (headers config))
               else config
           | _ => config
           end.
Proof.
  unfold intercept_request, getStoredToken.
  destruct (store !! AUTH_STORAGE_KEY) as [[v | raw] |]; simpl; [| | reflexivity].
  - rewrite truthy_coalesce_null.
    destruct (truthy (get_opt v "accessToken")) eqn:Ht; [| reflexivity].
    rewrite (coalesce_null_truthy _ Ht). reflexivity.
  - destruct (String.eqb raw ""); reflexivity.
Qed.

(** X8. The token the interceptor reads from storage is the token
    [AuthProvider] restores from storage, for every content of the
    storage. *)
Theorem getStoredToken_agrees_with_readStoredAuth (store : gmap string item) :
  getStoredToken store = Normal (snd (readStoredAuth store)).
Proof.
  unfold getStoredToken, readStoredAuth.
  destruct (store !! AUTH_STORAGE_KEY) as [[v | raw] |]; simpl; [| | reflexivity].
  - destruct v; reflexivity.
  - destruct (String.eqb raw ""); reflexivity.
Qed.

Lemma stored_pair_fields (u a : value) :
  stored_pair u a
  = Json (VObj (match u with
                | VUndefined => []
                | _ => [("user", json_roundtrip u)]
                end ++
                match a with
                | VUndefined => []
                | _ => [("accessToken", json_roundtrip a)]
                end)%list).
Proof. destruct u; destruct a; reflexivity. Qed.

(** Reading back an entry written for a user and a token: each comes back
    as it was, [undefined] as [null]. *)
Lemma read_stored_pair (store : gmap string item) (u a : value) :
  (u = VUndefined \/ is_json u = true) ->
  (a = VUndefined \/ is_json a = true) ->
  store !! AUTH_STORAGE_KEY = Some (stored_pair u a) ->
  readStoredAuth store = (coalesce u VNull, coalesce a VNull).
Proof.
  intros Hu Ha Hentry. unfold readStoredAuth. rewrite Hentry, stored_pair_fields.
  assert (Hru : u = VUndefined \/ json_roundtrip u = u)
    by (destruct Hu as [-> | Hu]; [left | right; apply json_roundtrip_id]; auto).
  assert (Hra : a = VUndefined \/ json_roundtrip a = a)
    by (destruct Ha as [-> | Ha]; [left | right; apply json_roundtrip_id]; auto).
  destruct Hru as [-> | Hru]; destruct Hra as [-> | Hra];
    try rewrite Hru; try rewrite Hra; clear;
    try (destruct u); try (destruct a); reflexivity.
Qed.

(** X9. What [persistAuth] writes, [readStoredAuth] reads back: a user
    and a token that are JSON values survive the trip through
    [localStorage] unchanged. *)
Theorem persistAuth_readStoredAuth_roundtrip (u a : value) (w : World) :
  is_json u = true ->
  is_json a = true ->
  readStoredAuth
    (localStorage (snd (persistAuth (VObj [("user", u); ("accessToken", a)]) w)))
  = (u, a).
Proof.
  intros Hu Ha.
  rewrite (read_stored_pair _ u a); auto.
  - destruct u; destruct a; try discriminate; reflexivity.
  - simpl. apply lookup_insert_eq.
Qed.

(** X10. A session survives a reload: after a resolved [login] whose
    reply was JSON, an [AuthProvider] started on the storage the login left
    begins with the user and the token the login set ([undefined] read
    back as [null]). *)
Theorem session_survives_reload (email password : string) (w : World) (r : Response)
    (rest replies : list reply) :
  server w = Responded r :: rest ->
  validateStatus (status r) = true ->
  nullish (data r) = false ->
  is_json (data r) = true ->
  let w' := snd (login email password w) in
  user (AuthProvider_init (localStorage w') replies) = coalesce (user w') VNull /\
  accessToken (AuthProvider_init (localStorage w') replies) = coalesce (accessToken w') VNull /\
  isLoading (AuthProvider_init (localStorage w') replies) = false.
Proof.
  intros Hserver Hvalid Hdata Hjson w'.
  destruct (login_reply email password w r rest Hserver Hvalid Hdata)
    as (_ & Hu & Ha & Hentry).
  fold w' in Hu, Ha, Hentry.
  set (payload := coalesce (get_opt (data r) "data") (data r)) in *.
  assert (Hp : is_json payload = true)
    by (apply coalesce_json; [apply get_opt_json |]; exact Hjson).
  unfold AuthProvider_init. simpl.
  rewrite (read_stored_pair _ _ _ (get_opt_json _ "user" Hp)
             (get_opt_json _ "accessToken" Hp) Hentry).
  simpl. rewrite Hu, Ha. auto.
Qed.

(** X11. After [logout] a protected route sends to [/login], at once and
    after a reload: the state cells are empty and so is the storage. *)
Theorem logout_leads_to_login (w : World) (replies : list reply) :
  ProtectedRoute (snd (logout w)) = NavigateTo "/login" /\
  ProtectedRoute (AuthProvider_init (localStorage (snd (logout w))) replies)
  = NavigateTo "/login".
Proof.
  destruct (logout_outcome w) as [Hb _]. unfold browser_state in Hb.
  injection Hb as Hu Ha Hl Hs. split.
  - unfold ProtectedRoute. rewrite Hl, Hu. reflexivity.
  - unfold ProtectedRoute, AuthProvider_init, readStoredAuth. simpl.
    rewrite Hs, lookup_delete_eq. reflexivity.
Qed.

(** X12. A resolved [login] shows the protected page only if the reply
    named a user: the login page navigates to [/] either way, and when the
    reply held no truthy [user] the protected route sends straight back to
    [/login]. *)
Theorem login_without_user_bounces (email password : string) (p : Page) (w : World)
    (r : Response) (rest : list reply) :
  server w = Responded r :: rest ->
  validateStatus (status r) = true ->
  nullish (data r) = false ->
  let payload := coalesce (get_opt (data r) "data") (data r) in
  let after := LoginPage_handleSubmit email password p w in
  route (fst after) = "/" /\
  error_message (fst after) = None /\
  ProtectedRoute (snd after)
  = if truthy (get_opt payload "user") then Children else NavigateTo "/login".
Proof.
  intros Hserver Hvalid Hdata payload after.
  destruct (login_reply email password w r rest Hserver Hvalid Hdata) as (Hdone & Hu & _).
  destruct (login_outcome email password w) as [Hl _].
  subst after. unfold LoginPage_handleSubmit.
  destruct (login email password w) as [[[] | x] w']; simpl in *; [| discriminate].
  repeat split. unfold ProtectedRoute. rewrite Hl, Hu.
  fold payload. destruct (truthy (get_opt payload "user")); reflexivity.
Qed.

(** The whole result of one request: how it ends, and the world it
    leaves: one reply consumed, the intercepted request logged, nothing
    else touched. *)
Lemma api_request_run (m u : string) (b : value) (w : World) :
  api_request m u b w
  = (match server w with
     | Responded r :: _ =>
         if validateStatus (status r) then Done r else Raised (AxiosError (Some (status r)))
     | _ => Raised (AxiosError None)
     end,
     mkWorld (user w) (accessToken w) (isLoading w) (localStorage w) (tail (server w))
       (sent w ++ [outgoing (localStorage w) m u b])%list).
Proof.
  unfold api_request, outgoing.
  destruct (intercept_request_returns (localStorage w) (mkRequest m u b default_headers))
    as [hs ->].
  destruct (server w) as [| [r |] rest]; simpl; auto.
  destruct (validateStatus (status r)); reflexivity.
Qed.

Lemma call_world (m u : string) (b : value) (w : World) :
  snd ((response <- api_request m u b ;; unwrap response)%async w)
  = mkWorld (user w) (accessToken w) (isLoading w) (localStorage w) (tail (server w))
      (sent w ++ [outgoing (localStorage w) m u b])%list.
Proof.
  rewrite bind_run, api_request_run.
  destruct (server w) as [| [r |] rest]; simpl; auto.
  destruct (validateStatus (status r)); simpl; auto.
  apply unwrap_effect.
Qed.

(** X13. [register] logs in only after the registration went through:
    when the registration request is rejected, that request is the only
    one sent and the session is untouched; when it resolves, the next
    request is [POST /auth/login] with the same email and password. *)
Theorem register_logs_in_after_registration (name email password : string) (w : World)
    (r : Response) (rest : list reply) :
  server w = Responded r :: rest ->
  let registration :=
    outgoing (localStorage w) "POST" "/auth/register"
      (VObj [("name", VStr name); ("email", VStr email); ("password", VStr password)]) in
  let signin :=
    outgoing (localStorage w) "POST" "/auth/login"
      (VObj [("email", VStr email); ("password", VStr password)]) in
  let w' := snd (register name email password w) in
  (validateStatus (status r) = false ->
   fst (register name email password w) = Raised (AxiosError (Some (status r))) /\
   sent w' = (sent w ++ [registration])%list /\
   server w' = rest /\
   session w' = session w) /\
  (validateStatus (status r) = true ->
   nullish (data r) = false ->
   sent w' = (sent w ++ [registration; signin])%list /\
   server w' = tail rest).
Proof.
  intros Hserver registration signin w'.
  set (w1 := mkWorld (user w) (accessToken w) true (localStorage w) (server w) (sent w)).
  assert (Heq : register name email password w
                = try_finally
                    (authService_register name email password ;;
                     data <- authService_login email password ;; adopt data)%async
                    (setIsLoading false) w1) by reflexivity.
  subst w'. rewrite Heq, try_finally_setIsLoading, bind_run. clear Heq.
  pose proof (call_world "POST" "/auth/register"
                (VObj [("name", VStr name); ("email", VStr email); ("password", VStr password)])
                w1) as Hw.
  fold (api_post "/auth/register"
          (VObj [("name", VStr name); ("email", VStr email); ("password", VStr password)])) in Hw.
  fold (authService_register name email password) in Hw.
  split.
  - intros Hvalid.
    pose proof (call_rejected "POST" "/auth/register"
                  (VObj [("name", VStr name); ("email", VStr email);
                         ("password", VStr password)]) w1 r rest Hserver Hvalid) as Hr.
    fold (api_post "/auth/register"
            (VObj [("name", VStr name); ("email", VStr email); ("password", VStr password)]))
      in Hr.
    fold (authService_register name email password) in Hr.
    destruct (authService_register name email password w1) as [[v | x] w2];
      simpl in Hr, Hw; [discriminate |].
    injection Hr as ->. subst w2. simpl. rewrite Hserver. repeat split.
  - intros Hvalid Hdata.
    pose proof (call_reply "POST" "/auth/register"
                  (VObj [("name", VStr name); ("email", VStr email);
                         ("password", VStr password)]) w1 r rest Hserver Hvalid Hdata) as Hr.
    fold (api_post "/auth/register"
            (VObj [("name", VStr name); ("email", VStr email); ("password", VStr password)]))
      in Hr.
    fold (authService_register name email password) in Hr.
    destruct (authService_register name email password w1) as [[v | x] w2];
      simpl in Hr, Hw; [| discriminate].
    subst w2. rewrite bind_run.
    pose proof (call_world "POST" "/auth/login"
                  (VObj [("email", VStr email); ("password", VStr password)])) as Hl.
    fold (api_post "/auth/login" (VObj [("email", VStr email); ("password", VStr password)]))
      in Hl.
    fold (authService_login email password) in Hl.
    match goal with
    | |- context [authService_login email password ?w2] =>
        specialize (Hl w2);
        pose proof (authService_login_done email password w2) as Hd;
        destruct (authService_login email password w2) as [[d | x] w3]
    end; simpl in Hl, Hd; subst w3.
    + rewrite (adopt_not_nullish d _ (Hd d eq_refl)). simpl.
      rewrite Hserver, <- app_assoc. split; reflexivity.
    + simpl. rewrite Hserver, <- app_assoc. split; reflexivity.
Qed.

(** The [try] block of [refreshSession] either leaves the user and the
    storage alone or installs a truthy user and writes an entry. *)
Lemma verify_and_store_user (token : value) (w : World) :
  let result :=
    (response <- authService_verify ;;
     valid <- lift (get response "valid") ;;
     if truthy valid then
       responseUser <- lift (get response "user") ;;
       if truthy responseUser then
         setUser responseUser ;;
         persistAuth (VObj [("user", responseUser); ("accessToken", token)])
       else ret tt
     else ret tt)%async w in
  (user (snd result) = user w /\ localStorage (snd result) = localStorage w) \/
  (truthy (user (snd result)) = true /\
   is_Some (localStorage (snd result) !! AUTH_STORAGE_KEY)).
Proof.
  pose proof (authService_verify_effect w) as Hb.
  pose proof (authService_verify_done w) as Hd.
  unfold bind. destruct (authService_verify w) as [[response | x] w2];
    simpl in Hb, Hd; unfold browser_state in Hb; injection Hb as Hu Ha Hl Hs.
  - rewrite !(get_not_nullish _ _ (Hd response eq_refl)). simpl.
    destruct (truthy (get_opt response "valid")); simpl; [| auto].
    destruct (truthy (get_opt response "user")) eqn:Ht; simpl; [| auto].
    right. split; [exact Ht |]. rewrite lookup_insert_eq. eauto.
  - simpl. auto.
Qed.

Lemma refreshSession_run (w : World) :
  truthy (accessToken w) = true ->
  refreshSession w
  = try_finally
      (response <- authService_verify ;;
       valid <- lift (get response "valid") ;;
       if truthy valid then
         responseUser <- lift (get response "user") ;;
         if truthy responseUser then
           setUser responseUser ;;
           persistAuth (VObj [("user", responseUser); ("accessToken", accessToken w)])
         else ret tt
       else ret tt)%async
      (setIsLoading false)
      (mkWorld (user w) (accessToken w) true (localStorage w) (server w) (sent w)).
Proof. intros Ht. unfold refreshSession. rewrite Ht. reflexivity. Qed.

(** X14. [refreshSession] never signs the user out, whatever the server
    answers: the token is kept, a user that was shown is followed by a
    user that is shown, and a stored entry stays stored. In particular a
    reply with [valid: false] changes nothing. *)
Theorem refreshSession_never_signs_out (w : World) (r : Response) (rest : list reply) :
  accessToken (snd (refreshSession w)) = accessToken w /\
  (truthy (user w) = true -> truthy (user (snd (refreshSession w))) = true) /\
  (is_Some (localStorage w !! AUTH_STORAGE_KEY) ->
   is_Some (localStorage (snd (refreshSession w)) !! AUTH_STORAGE_KEY)) /\
  (server w = Responded r :: rest ->
   validateStatus (status r) = true ->
   nullish (data r) = false ->
   truthy (get_opt (coalesce (get_opt (data r) "data") (data r)) "valid") = false ->
   fst (refreshSession w) = Done tt /\ session (snd (refreshSession w)) = session w).
Proof.
  destruct (refreshSession_outcome w) as [Htok _].
  split; [exact Htok |].
  destruct (truthy (accessToken w)) eqn:Ht.
  2:{ rewrite (refreshSession_no_token w Ht). simpl. auto. }
  rewrite (refreshSession_run w Ht), try_finally_setIsLoading.
  set (w1 := mkWorld (user w) (accessToken w) true (localStorage w) (server w) (sent w)).
  split; [| split].
  - intros Hu. destruct (verify_and_store_user (accessToken w) w1) as [[H _] | [H _]];
      simpl in *; congruence.
  - intros Hs. destruct (verify_and_store_user (accessToken w) w1) as [[_ H] | [_ H]];
      simpl in *; congruence.
  - intros Hserver Hvalid Hdata Hfalse.
    pose proof (call_reply "GET" "/auth/verify" VUndefined w1 r rest Hserver Hvalid Hdata)
      as Hr.
    pose proof (authService_verify_effect w1) as Hb.
    pose proof (authService_verify_done w1) as Hd.
    fold (api_get "/auth/verify") in Hr. fold authService_verify in Hr.
    rewrite bind_run.
    destruct (authService_verify w1) as [[response | x] w2]; simpl in Hr, Hb, Hd;
      [| discriminate].
    injection Hr as ->. unfold browser_state in Hb. injection Hb as Hu Ha _ Hs.
    unfold bind, lift. rewrite (get_not_nullish _ "valid" (Hd _ eq_refl)).
    unfold ret. cbv beta iota. rewrite Hfalse.
    simpl. split; [reflexivity |]. unfold session. simpl. congruence.
Qed.

Lemma refreshSession_loading (w : World) :
  isLoading (snd (refreshSession w))
  = if truthy (accessToken w) then false else isLoading w.
Proof.
  destruct (truthy (accessToken w)) eqn:Ht.
  - rewrite (refreshSession_run w Ht), try_finally_setIsLoading. reflexivity.
  - rewrite (refreshSession_no_token w Ht). reflexivity.
Qed.

(** X15. The loading flag does not get stuck: starting with it down, it
    is down again after every sequence of operations, however each of them
    ends, so [ProtectedRoute] never stays on its loading view. *)
Theorem loading_flag_is_reset (ops : list operation) (w : World) :
  isLoading w = false ->
  isLoading (perform_all ops w) = false /\
  ProtectedRoute (perform_all ops w) <> LoadingView.
Proof.
  intros Hw.
  assert (H : isLoading (perform_all ops w) = false).
  { revert w Hw. induction ops as [| o ops IH]; intros w Hw; simpl; [exact Hw |].
    apply IH. destruct o as [email password | name email password | |]; simpl.
    - apply login_outcome.
    - apply register_outcome.
    - rewrite refreshSession_loading, Hw. destruct (truthy (accessToken w)); reflexivity.
    - destruct (logout_outcome w) as [Hb _]. unfold browser_state in Hb.
      injection Hb as _ _ -> _. reflexivity. }
  split; [exact H |]. unfold ProtectedRoute. rewrite H.
  destruct (negb (truthy (user (perform_all ops w)))); discriminate.
Qed.

(** X16. The [data] envelope of a reply is optional: [authService.login]
    resolves with the same payload whether the server sends the payload
    bare or wrapped in an object under [data]. *)
Theorem reply_envelope_is_optional (email password : string) (w : World) (r : Response)
    (rest : list reply) (payload : value) :
  server w = Responded r :: rest ->
  validateStatus (status r) = true ->
  nullish payload = false ->
  (data r = payload /\ nullish (get_opt payload "data") = true) \/
  get_opt (data r) "data" = payload ->
  fst (authService_login email password w) = Done payload.
Proof.
  intros Hserver Hvalid Hp Hshape.
  assert (Hdata : nullish (data r) = false).
  { destruct Hshape as [[-> _] | Hget]; [exact Hp |].
    destruct (data r); simpl in *; subst; try discriminate; reflexivity. }
  rewrite (authService_login_reply email password w r rest Hserver Hvalid Hdata).
  f_equal. unfold coalesce. destruct Hshape as [[-> ->] | ->]; [reflexivity |].
  rewrite Hp. reflexivity.
Qed.

(** X17. A 2xx reply whose body is [null] makes [login] reject with a
    [TypeError] (the envelope cannot be read), and the session stays as it
    was. *)
Theorem login_null_body_rejects (email password : string) (w : World) (r : Response)
    (rest : list reply) :
  server w = Responded r :: rest ->
  validateStatus (status r) = true ->
  nullish (data r) = true ->
  (exists msg, fst (login email password w) = Raised (Thrown (TypeError msg))) /\
  session (snd (login email password w)) = session w.
Proof.
  intros Hserver Hvalid Hnull.
  assert (Hrej : exists msg, fst (login email password w) = Raised (Thrown (TypeError msg))).
  { set (w1 := mkWorld (user w) (accessToken w) true (localStorage w) (server w) (sent w)).
    assert (Heq : login email password w
                  = try_finally (data <- authService_login email password ;; adopt data)%async
                      (setIsLoading false) w1) by reflexivity.
    rewrite Heq, try_finally_setIsLoading, bind_run. clear Heq. simpl.
    unfold authService_login, api_post. rewrite bind_run, api_request_run.
    change (server w1) with (server w). rewrite Hserver, Hvalid.
    unfold unwrap, lift, bind.
    destruct (data r); simpl in *; try discriminate; eauto. }
  split; [exact Hrej |].
  destruct Hrej as [msg Hrej].
  destruct (login_outcome email password w) as [_ H]. rewrite Hrej in H. exact H.
Qed.

(** X18. The register page sends nothing when the confirmation differs
    from the password: it shows "Passwords do not match." and leaves the
    world as it is. Otherwise it ends in one of two ways: on [/] with no
    message, which happens only when [register] resolved, or where it was
    with a message. *)
Theorem RegisterPage_submit (name email password confirmPassword : string)
    (p : Page) (w : World) :
  let after := RegisterPage_handleSubmit name email password confirmPassword p w in
  (password <> confirmPassword ->
   after = (mkPage (Some "Passwords do not match.") (route p), w)) /\
  ((route (fst after) = "/" /\ error_message (fst after) = None /\
    password = confirmPassword /\ fst (register name email password w) = Done tt) \/
   (route (fst after) = route p /\ is_Some (error_message (fst after)))).
Proof.
  intros after. subst after. unfold RegisterPage_handleSubmit.
  destruct (String.eqb password confirmPassword) eqn:Heq; simpl.
  - apply String.eqb_eq in Heq. split; [intros Hne; contradiction |].
    destruct (register name email password w) as [[[] | x] w']; simpl.
    + left. auto.
    + right. split; [reflexivity | eauto].
  - split; [reflexivity |]. right. split; [reflexivity | eauto].
Qed.

Lemma fetch_projects_run (w : World) :
  snd (fetch_projects w)
  = mkWorld (user w) (accessToken w) (isLoading w) (localStorage w) (tail (server w))
      (sent w ++ [outgoing (localStorage w) "GET" "/projects" VUndefined])%list /\
  forall listed, fst (fetch_projects w) = Done listed -> nullish listed = false.
Proof.
  unfold fetch_projects, api_get. rewrite bind_run, api_request_run.
  destruct (server w) as [| [r |] rest]; simpl; try (split; [reflexivity | discriminate]).
  destruct (validateStatus (status r)); simpl; [| split; [reflexivity | discriminate]].
  unfold unwrap, lift, bind, ret, raise.
  destruct (get (data r) "data") as [inner | e]; simpl;
    [| split; [reflexivity | discriminate]].
  destruct (get (coalesce inner (data r)) "projects") as [listed | e]; simpl;
    [| split; [reflexivity | discriminate]].
  split; [reflexivity |]. intros l H. injection H as <-.
  unfold coalesce. destruct (nullish listed) eqn:Hn; [reflexivity | exact Hn].
Qed.

(** X19. Loading the projects never touches the session: whatever the
    reply (a 401 included), user, token, loading flag and storage are what
    they were, and exactly one [GET /projects] was sent. The page ends on
    [idle] with a project list that is neither [null] nor [undefined], or
    on [error] with the list it had. *)
Theorem loadProjects_keeps_session (d : Dashboard) (w : World) :
  let after := loadProjects d w in
  browser_state (snd after) = browser_state w /\
  sent (snd after)
  = (sent w ++ [outgoing (localStorage w) "GET" "/projects" VUndefined])%list /\
  ((load (fst after) = StatusIdle /\ nullish (projects (fst after)) = false) \/
   (load (fst after) = StatusError /\ projects (fst after) = projects d)).
Proof.
  intros after. subst after. unfold loadProjects.
  destruct (fetch_projects_run w) as [Hw Hl].
  destruct (fetch_projects w) as [[listed | x] w']; simpl in *; subst w'; simpl.
  - repeat split. left. split; [reflexivity | exact (Hl listed eq_refl)].
  - repeat split. right. split; reflexivity.
Qed.

End MoreFrontendFacts.

(** ** Closed instances of the further properties *)

Section MoreInstances.

Import Frontend Samples Validation.

Lemma validatePassword_extension_witness :
  isValid (validatePassword strong_password) = true /\
  isValid (validatePassword ([32%N] ++ strong_password ++ [97%N; 98%N; 99%N])%list) = true.
Proof.
  assert (H : isValid (validatePassword strong_password) = true) by reflexivity.
  split; [exact H |].
  exact (proj2 (validatePassword_extension strong_password [32%N] [97; 98; 99]%N) H).
Defined.

Lemma refresh_token_claims_witness :
  Jwt.JWT_REFRESH_SECRET config <> "" /\
  exists tok,
    Jwt.generateRefreshToken key_tag config "user-1" 1672531200 = Normal tok /\
    keys (Jwt.claims tok) = ["sub"; "type"; "iat"; "exp"] /\
    get (Jwt.claims tok) "sub" = Normal (VStr "user-1") /\
    get (Jwt.claims tok) "type" = Normal (VStr "refresh") /\
    get (Jwt.claims tok) "iat" = Normal (VNum 1672531200) /\
    get (Jwt.claims tok) "exp" = Normal (VNum (1672531200 + 30 * 86400)).
Proof.
  assert (H : Jwt.JWT_REFRESH_SECRET config <> "") by discriminate.
  split; [exact H |].
  exact (refresh_token_claims key_tag config "user-1" 1672531200 H).
Defined.

Lemma prefixed_tag_not_empty (alg k : string) (header payload : value) :
  prefixed_tag alg k header payload <> "".
Proof. discriminate. Qed.

Lemma access_token_validity_window_witness :
  Jwt.JWT_SECRET config <> "" /\
  (forall alg k header payload, prefixed_tag alg k header payload <> "") /\
  exists tok,
    Jwt.generateAccessToken prefixed_tag config "user-1" "user@example.com" 1672531200
    = Normal tok /\
    Jwt.verifyToken prefixed_tag config tok 1672617599
    = if 1672617599 <? 1672531200 + 86400 then Normal (Jwt.claims tok)
      else Throw (Error "Invalid token").
Proof.
  assert (H : Jwt.JWT_SECRET config <> "") by discriminate.
  split; [exact H |]. split; [exact prefixed_tag_not_empty |].
  exact (access_token_validity_window prefixed_tag config "user-1" "user@example.com"
           1672531200 1672617599 H prefixed_tag_not_empty).
Defined.

Lemma verifyToken_accepts_only_signed_live_tokens_witness :
  Jwt.verifyToken key_tag config access_token 1672531300
  = Normal (Jwt.claims access_token) /\
  exists header sig alg,
    access_token = Jwt.Jws header (Jwt.claims access_token) sig /\
    In alg ["HS256"; "HS384"; "HS512"] /\
    get_opt header "alg" = VStr alg /\
    sig = key_tag alg (Jwt.JWT_SECRET config) header (Jwt.claims access_token) /\
    sig <> "" /\
    (forall e, get (Jwt.claims access_token) "exp" = Normal (VNum e) -> 1672531300 < e) /\
    (forall n, get (Jwt.claims access_token) "nbf" = Normal (VNum n) -> n <= 1672531300).
Proof.
  assert (H : Jwt.verifyToken key_tag config access_token 1672531300
              = Normal (Jwt.claims access_token)) by reflexivity.
  split; [exact H |].
  exact (verifyToken_accepts_only_signed_live_tokens key_tag config access_token
           1672531300 (Jwt.claims access_token) H).
Defined.

Lemma verifyToken_ignores_type_witness :
  Jwt.JWT_SECRET shared_config = Jwt.JWT_REFRESH_SECRET shared_config /\
  Jwt.JWT_REFRESH_SECRET shared_config <> "" /\
  1672531300 < 1672531200 + 2592000 /\
  exists tok,
    Jwt.generateRefreshToken prefixed_tag shared_config "user-1" 1672531200 = Normal tok /\
    get (Jwt.claims tok) "type" = Normal (VStr "refresh") /\
    Jwt.verifyToken prefixed_tag shared_config tok 1672531300 = Normal (Jwt.claims tok).
Proof.
  assert (H1 : Jwt.JWT_SECRET shared_config = Jwt.JWT_REFRESH_SECRET shared_config)
    by reflexivity.
  assert (H2 : Jwt.JWT_REFRESH_SECRET shared_config <> "") by discriminate.
  assert (H3 : 1672531300 < 1672531200 + 2592000) by lia.
  split; [exact H1 |]. split; [exact H2 |]. split; [exact H3 |].
  exact (verifyToken_ignores_type prefixed_tag shared_config "user-1" 1672531200 1672531300
           H1 H2 prefixed_tag_not_empty H3).
Defined.

Lemma persistAuth_readStoredAuth_roundtrip_witness :
  is_json alice = true /\
  is_json (VStr "access-1") = true /\
  readStoredAuth
    (localStorage
       (snd (persistAuth (VObj [("user", alice); ("accessToken", VStr "access-1")])
               (fresh_browser logged_in))))
  = (alice, VStr "access-1").
Proof.
  assert (H1 : is_json alice = true) by reflexivity.
  assert (H2 : is_json (VStr "access-1") = true) by reflexivity.
  split; [exact H1 |]. split; [exact H2 |].
  exact (persistAuth_readStoredAuth_roundtrip alice (VStr "access-1")
           (fresh_browser logged_in) H1 H2).
Defined.

Lemma session_survives_reload_witness :
  server (fresh_browser logged_in) = [Responded logged_in] /\
  validateStatus (status logged_in) = true /\
  nullish (data logged_in) = false /\
  is_json (data logged_in) = true /\
  user (AuthProvider_init
          (localStorage (snd (login "alice@example.com" "Str0ngP@ssw0rd!"
                                (fresh_browser logged_in)))) [])
  = coalesce (user (snd (login "alice@example.com" "Str0ngP@ssw0rd!"
                           (fresh_browser logged_in)))) VNull.
Proof.
  split; [reflexivity |]. split; [reflexivity |]. split; [reflexivity |].
  split; [reflexivity |].
  exact (proj1 (session_survives_reload "alice@example.com" "Str0ngP@ssw0rd!"
                  (fresh_browser logged_in) logged_in [] [] eq_refl eq_refl eq_refl eq_refl)).
Defined.

Lemma login_without_user_bounces_witness :
  server (fresh_browser tokens_only) = [Responded tokens_only] /\
  validateStatus (status tokens_only) = true /\
  nullish (data tokens_only) = false /\
  route (fst (LoginPage_handleSubmit "alice@example.com" "Str0ngP@ssw0rd!"
                (mkPage None "/login") (fresh_browser tokens_only))) = "/" /\
  ProtectedRoute (snd (LoginPage_handleSubmit "alice@example.com" "Str0ngP@ssw0rd!"
                         (mkPage None "/login") (fresh_browser tokens_only)))
  = NavigateTo "/login".
Proof.
  destruct (login_without_user_bounces "alice@example.com" "Str0ngP@ssw0rd!"
              (mkPage None "/login") (fresh_browser tokens_only) tokens_only []
              eq_refl eq_refl eq_refl) as (Hroute & _ & Hview).
  split; [reflexivity |]. split; [reflexivity |]. split; [reflexivity |].
  split; [exact Hroute | exact Hview].
Defined.

Lemma register_logs_in_after_registration_witness :
  server (fresh_browser unauthorized) = [Responded unauthorized] /\
  validateStatus (status unauthorized) = false /\
  List.length (sent (snd (register "alice" "alice@example.com" "Str0ngP@ssw0rd!"
                            (fresh_browser unauthorized)))) = 1%nat /\
  server (fresh_browser created) = [Responded created] /\
  validateStatus (status created) = true /\
  nullish (data created) = false /\
  List.length (sent (snd (register "alice" "alice@example.com" "Str0ngP@ssw0rd!"
                            (fresh_browser created)))) = 2%nat.
Proof.
  destruct (register_logs_in_after_registration "alice" "alice@example.com"
              "Str0ngP@ssw0rd!" (fresh_browser unauthorized) unauthorized [] eq_refl)
    as [Hbad _].
  destruct (register_logs_in_after_registration "alice" "alice@example.com"
              "Str0ngP@ssw0rd!" (fresh_browser created) created [] eq_refl)
    as [_ Hok].
  destruct (Hbad eq_refl) as (_ & Hsent1 & _).
  destruct (Hok eq_refl eq_refl) as (Hsent2 & _).
  split; [reflexivity |]. split; [reflexivity |].
  split; [rewrite Hsent1; reflexivity |].
  split; [reflexivity |]. split; [reflexivity |]. split; [reflexivity |].
  rewrite Hsent2. reflexivity.
Defined.

Lemma refreshSession_never_signs_out_witness :
  truthy (user (signed_in_with not_valid)) = true /\
  is_Some (localStorage (signed_in_with not_valid) !! AUTH_STORAGE_KEY) /\
  server (signed_in_with not_valid) = [Responded not_valid] /\
  validateStatus (status not_valid) = true /\
  nullish (data not_valid) = false /\
  truthy (get_opt (coalesce (get_opt (data not_valid) "data") (data not_valid)) "valid")
  = false /\
  truthy (user (snd (refreshSession (signed_in_with not_valid)))) = true /\
  is_Some (localStorage (snd (refreshSession (signed_in_with not_valid)))
             !! AUTH_STORAGE_KEY) /\
  session (snd (refreshSession (signed_in_with not_valid)))
  = session (signed_in_with not_valid).
Proof.
  assert (H1 : truthy (user (signed_in_with not_valid)) = true) by reflexivity.
  assert (H2 : is_Some (localStorage (signed_in_with not_valid) !! AUTH_STORAGE_KEY))
    by (vm_compute; eauto).
  destruct (refreshSession_never_signs_out (signed_in_with not_valid) not_valid [])
    as (_ & Hu & Hs & Hv).
  destruct (Hv eq_refl eq_refl eq_refl eq_refl) as [_ Hsame].
  split; [exact H1 |]. split; [exact H2 |].
  split; [reflexivity |]. split; [reflexivity |]. split; [reflexivity |].
  split; [reflexivity |].
  split; [exact (Hu H1) |]. split; [exact (Hs H2) | exact Hsame].
Defined.

Lemma loading_flag_is_reset_witness :
  isLoading (fresh_browser unauthorized) = false /\
  isLoading (perform_all [Login "alice@example.com" "wrong"; RefreshSession; Logout]
               (fresh_browser unauthorized)) = false.
Proof.
  assert (H : isLoading (fresh_browser unauthorized) = false) by reflexivity.
  split; [exact H |].
  exact (proj1 (loading_flag_is_reset
                  [Login "alice@example.com" "wrong"; RefreshSession; Logout]
                  (fresh_browser unauthorized) H)).
Defined.

Lemma reply_envelope_is_optional_witness :
  server (fresh_browser logged_in) = [Responded logged_in] /\
  validateStatus (status logged_in) = true /\
  get_opt (data logged_in) "data"
  = VObj [("user", alice); ("accessToken", VStr "access-1");
          ("refreshToken", VStr "refresh-1"); ("expiresIn", VNum 86400)] /\
  fst (authService_login "alice@example.com" "Str0ngP@ssw0rd!" (fresh_browser logged_in))
  = Done (VObj [("user", alice); ("accessToken", VStr "access-1");
                ("refreshToken", VStr "refresh-1"); ("expiresIn", VNum 86400)]) /\
  server (fresh_browser tokens_only) = [Responded tokens_only] /\
  nullish (get_opt (data tokens_only) "data") = true /\
  fst (authService_login "alice@example.com" "Str0ngP@ssw0rd!" (fresh_browser tokens_only))
  = Done (data tokens_only).
Proof.
  split; [reflexivity |]. split; [reflexivity |]. split; [reflexivity |].
  split.
  { exact (reply_envelope_is_optional "alice@example.com" "Str0ngP@ssw0rd!"
             (fresh_browser logged_in) logged_in [] (get_opt (data logged_in) "data")
             eq_refl eq_refl eq_refl (or_intror eq_refl)). }
  split; [reflexivity |]. split; [reflexivity |].
  exact (reply_envelope_is_optional "alice@example.com" "Str0ngP@ssw0rd!"
           (fresh_browser tokens_only) tokens_only [] (data tokens_only)
           eq_refl eq_refl eq_refl (or_introl (conj eq_refl eq_refl))).
Defined.

Lemma login_null_body_rejects_witness :
  server (fresh_browser null_body) = [Responded null_body] /\
  validateStatus (status null_body) = true /\
  nullish (data null_body) = true /\
  (exists msg,
     fst (login "alice@example.com" "Str0ngP@ssw0rd!" (fresh_browser null_body))
     = Raised (Thrown (TypeError msg))) /\
  session (snd (login "alice@example.com" "Str0ngP@ssw0rd!" (fresh_browser null_body)))
  = session (fresh_browser null_body).
Proof.
  split; [reflexivity |]. split; [reflexivity |]. split; [reflexivity |].
  exact (login_null_body_rejects "alice@example.com" "Str0ngP@ssw0rd!"
           (fresh_browser null_body) null_body [] eq_refl eq_refl eq_refl).
Defined.

Lemma RegisterPage_submit_witness :
  "Str0ngP@ssw0rd!" <> "Str0ngP@ssw0rd" /\
  RegisterPage_handleSubmit "alice" "alice@example.com" "Str0ngP@ssw0rd!" "Str0ngP@ssw0rd"
    (mkPage None "/register") (fresh_browser created)
  = (mkPage (Some "Passwords do not match.") "/register", fresh_browser created).
Proof.
  assert (H : "Str0ngP@ssw0rd!" <> "Str0ngP@ssw0rd") by discriminate.
  split; [exact H |].
  exact (proj1 (RegisterPage_submit "alice" "alice@example.com" "Str0ngP@ssw0rd!"
                  "Str0ngP@ssw0rd" (mkPage None "/register") (fresh_browser created)) H).
Defined.

End MoreInstances.
